(** * MotorDex: plate extraction, registry lookup and collection storage

    A shallow embedding of
      - [motordex-backend/server/server.ts]: the UK plate matcher
        [isValidUKLicensePlate], the candidate extractor
        [extractLicensePlates], [lookupVehicle] and the [/upload] handler;
      - [MotorDexApp/components/motorDexCamera.tsx]: [saveToCollection].

    Text is modelled by the Standard Library's [string] (a sequence of
    8-bit characters) read as ASCII text.  On that range JavaScript's
    [\s] class and [trim] whitespace are TAB, LF, VT, FF, CR and SPACE,
    [toUpperCase] maps a-z to A-Z and [toLowerCase] maps A-Z to a-z, each
    leaving every other character alone.

    Outside ASCII [toUpperCase] can lengthen a string.  Module [Utf16]
    gives the plate matcher on strings of UTF-16 code units, with the
    Unicode special casing that matters to it, and the ASCII matcher is
    proved to be its restriction to ASCII text. *)

From Stdlib Require Import Bool Arith Lia List Ascii String Sorted NArith.
Set Warnings "-register-all".
Import ListNotations.
Open Scope string_scope.
Open Scope list_scope.
Open Scope nat_scope.

(* ================================================================== *)
(** * Characters and the JavaScript string primitives the code uses   *)
(* ================================================================== *)

Module Chars.

Definition code (c : ascii) : nat := nat_of_ascii c.

(** [[A-Z]] *)
Definition is_AZ (c : ascii) : bool := (65 <=? code c) && (code c <=? 90).
(** [[a-z]] *)
Definition is_az (c : ascii) : bool := (97 <=? code c) && (code c <=? 122).
(** [\d] *)
Definition is_digit (c : ascii) : bool := (48 <=? code c) && (code c <=? 57).
(** [\s] on ASCII: TAB, LF, VT, FF, CR, SPACE *)
Definition is_space (c : ascii) : bool :=
  ((9 <=? code c) && (code c <=? 13)) || (code c =? 32).
(** the one-character classes [\.], [:] and [\n] *)
Definition is_char (x : ascii) (c : ascii) : bool := Ascii.eqb x c.

Definition upper (c : ascii) : ascii :=
  if is_az c then ascii_of_nat (code c - 32) else c.
Definition lower (c : ascii) : ascii :=
  if is_AZ c then ascii_of_nat (code c + 32) else c.

End Chars.
Import Chars.

Module JsString.

(** [s.toUpperCase()] on ASCII text; [Utf16.toUpperCase] is the
    version for strings of code units. *)
Fixpoint toUpperCase (s : string) : string :=
  match s with
  | EmptyString => EmptyString
  | String c r => String (upper c) (toUpperCase r)
  end.

(** [s.toLowerCase()] *)
Fixpoint toLowerCase (s : string) : string :=
  match s with
  | EmptyString => EmptyString
  | String c r => String (lower c) (toLowerCase r)
  end.

(** [s.replace(/\s+/g, '')]: every whitespace run is deleted. *)
Fixpoint stripSpaces (s : string) : string :=
  match s with
  | EmptyString => EmptyString
  | String c r => if is_space c then stripSpaces r else String c (stripSpaces r)
  end.

(** [s.replace(/\n/g, ' ')] *)
Fixpoint newlinesToSpaces (s : string) : string :=
  match s with
  | EmptyString => EmptyString
  | String c r =>
      String (if is_char "010" c then " "%char else c) (newlinesToSpaces r)
  end.

(** [s.replace(/\s+/g, ' ')]: every maximal whitespace run becomes one
    space.  [inRun] records that the previous character was whitespace. *)
Fixpoint collapseFrom (inRun : bool) (s : string) : string :=
  match s with
  | EmptyString => EmptyString
  | String c r =>
      if is_space c
      then (if inRun then collapseFrom true r
            else String " " (collapseFrom true r))
      else String c (collapseFrom false r)
  end.
Definition collapseSpaces (s : string) : string := collapseFrom false s.

Fixpoint trimStart (s : string) : string :=
  match s with
  | EmptyString => EmptyString
  | String c r => if is_space c then trimStart r else s
  end.

Fixpoint trimEnd (s : string) : string :=
  match s with
  | EmptyString => EmptyString
  | String c r =>
      match trimEnd r with
      | EmptyString => if is_space c then EmptyString else String c EmptyString
      | r' => String c r'
      end
  end.

(** [s.trim()] *)
Definition trim (s : string) : string := trimEnd (trimStart s).

(** JavaScript truthiness of a string: only [''] is falsy. *)
Definition truthy (s : string) : bool :=
  match s with EmptyString => false | _ => true end.

(** [xs.join(sep)] *)
Fixpoint join (sep : string) (xs : list string) : string :=
  match xs with
  | [] => ""
  | [x] => x
  | x :: r => (x ++ sep ++ join sep r)%string
  end.

End JsString.
Import JsString.

(* ================================================================== *)
(** * The regular expressions of server.ts                            *)
(* ================================================================== *)

(** Every regular expression literal of the server is a sequence of
    quantified character classes [c{lo,hi}], optionally anchored.  [Regex]
    gives that fragment its ECMAScript meaning: quantifiers are greedy and
    the matcher backtracks. *)
Module Regex.

Record atom : Type := Atom {
  cls : ascii -> bool;      (* the character class *)
  lo  : nat;                (* least number of repetitions *)
  hi  : option nat          (* greatest number; [None] for [*] and [+] *)
}.

Definition t := list atom.

Definition exactly (p : ascii -> bool) (n : nat) : atom := Atom p n (Some n).
Definition between (p : ascii -> bool) (a b : nat) : atom := Atom p a (Some b).
Definition star (p : ascii -> bool) : atom := Atom p 0 None.
Definition plus (p : ascii -> bool) : atom := Atom p 1 None.

Definition room (h : option nat) : bool :=
  match h with Some 0 => false | _ => true end.
Definition less (h : option nat) : option nat := option_map pred h.

(** [rep p lo hi k s]: match [p{lo,hi}] at the head of [s], then the rest
    of the pattern [k]; the result is the number of characters
    consumed.  One more repetition is tried before the continuation. *)
Fixpoint rep (p : ascii -> bool) (lo : nat) (hi : option nat)
         (k : string -> option nat) (s : string) {struct s} : option nat :=
  let stop := match lo with 0 => k s | S _ => None end in
  match s with
  | EmptyString => stop
  | String c r =>
      if p c && room hi then
        match rep p (pred lo) (less hi) k r with
        | Some n => Some (S n)
        | None => stop
        end
      else stop
  end.

(** What follows the last atom: [$] or nothing. *)
Definition finish (anchored : bool) (s : string) : option nat :=
  if anchored then (match s with EmptyString => Some 0 | _ => None end)
  else Some 0.

(** Length of the match of [re] that starts at the head of [s]. *)
Fixpoint exec (re : t) (anchored : bool) : string -> option nat :=
  match re with
  | [] => finish anchored
  | a :: re' => rep (cls a) (lo a) (hi a) (exec re' anchored)
  end.

(** [/^re$/.test(s)] *)
Definition test (re : t) (s : string) : bool :=
  match exec re true s with Some _ => true | None => false end.

(** [s.match(/re/g)]: the matches, left to right, each search resuming
    where the previous match ended ([skip] characters are still covered
    by it); an empty match moves on by one character. *)
Fixpoint matchAllFrom (re : t) (skip : nat) (s : string) {struct s}
  : list string :=
  match s with
  | EmptyString =>
      match skip, exec re false s with
      | 0, Some _ => [""]
      | _, _ => []
      end
  | String _ r =>
      match skip with
      | S j => matchAllFrom re j r
      | 0 =>
          match exec re false s with
          | Some n => substring 0 n s :: matchAllFrom re (pred n) r
          | None => matchAllFrom re 0 r
          end
      end
  end.

Definition matchAll (re : t) (s : string) : list string :=
  matchAllFrom re 0 s.

(** The language of a pattern, stated without reference to the
    matcher: a word is a concatenation of runs, one per atom. *)
Fixpoint allChars (p : ascii -> bool) (s : string) : bool :=
  match s with
  | EmptyString => true
  | String c r => p c && allChars p r
  end.

Definition within (h : option nat) (n : nat) : Prop :=
  match h with Some m => n <= m | None => True end.

Definition fits (a : atom) (run : string) : Prop :=
  allChars (cls a) run = true
  /\ lo a <= String.length run
  /\ within (hi a) (String.length run).

Inductive Matches : t -> string -> Prop :=
| Matches_nil : Matches [] ""
| Matches_cons a re run rest :
    fits a run -> Matches re rest -> Matches (a :: re) (run ++ rest)%string.

(** [Tiling re s ms]: the words [ms] of [re] lie in [s] one after the
    other, in this order and without overlap, with gaps between them. *)
Inductive Tiling (re : t) : string -> list string -> Prop :=
| Tiling_end gap : Tiling re gap []
| Tiling_match gap m rest ms :
    Matches re m -> Tiling re rest ms ->
    Tiling re (gap ++ m ++ rest)%string (m :: ms).

(** A word of [re] starts at the head of [s]. *)
Definition StartsWord (re : t) (s : string) : Prop :=
  exists m post, s = (m ++ post)%string /\ Matches re m.

(** At most one word of [re] starts at any place, and it is not empty. *)
Definition Unambiguous (re : t) : Prop :=
  ~ Matches re ""
  /\ forall m m' post post',
       Matches re m -> Matches re m' ->
       (m ++ post)%string = (m' ++ post')%string -> m = m'.

(** [LeftmostScan re s ms]: [ms] lists the words of [re] found in [s] by
    taking the leftmost one, then the leftmost one that starts after its
    end, and so on until no word is left: no word starts in a gap. *)
Inductive LeftmostScan (re : t) : string -> list string -> Prop :=
| Scan_none s :
    (forall pre tail, s = (pre ++ tail)%string -> ~ StartsWord re tail) ->
    LeftmostScan re s []
| Scan_found gap m rest ms :
    (forall g1 g2, gap = (g1 ++ g2)%string -> g2 <> "" ->
                   ~ StartsWord re (g2 ++ m ++ rest)) ->
    Matches re m ->
    LeftmostScan re rest ms ->
    LeftmostScan re (gap ++ m ++ rest)%string (m :: ms).

(** The least and the greatest length of a word of a pattern whose
    quantifiers are all bounded. *)
Definition minLen (re : t) : nat := fold_right (fun a n => lo a + n) 0 re.
Definition maxLen (re : t) : nat :=
  fold_right (fun a n => match hi a with Some h => h + n | None => n end) 0 re.
Definition bounded (re : t) : bool :=
  forallb (fun a => match hi a with Some _ => true | None => false end) re.

End Regex.

(* ================================================================== *)
(** * server.ts: the plate matcher                                    *)
(* ================================================================== *)

Module Server.
Import Regex.

(** [text.replace(/\s+/g, '').toUpperCase()] *)
Definition clean (text : string) : string := toUpperCase (stripSpaces text).

(** [/^[A-Z]{2}\d{2}[A-Z]{3}$/] *)
Definition currentFormat : Regex.t :=
  [exactly is_AZ 2; exactly is_digit 2; exactly is_AZ 3].
(** [/^[A-Z]\d{1,3}[A-Z]{3}$/] *)
Definition prefixFormat : Regex.t :=
  [exactly is_AZ 1; between is_digit 1 3; exactly is_AZ 3].
(** [/^[A-Z]{3}\d{1,3}[A-Z]$/] *)
Definition suffixFormat : Regex.t :=
  [exactly is_AZ 3; between is_digit 1 3; exactly is_AZ 1].
(** [/^[A-Z]{1,3}\d{1,4}$/] *)
Definition datelessFormat : Regex.t :=
  [between is_AZ 1 3; between is_digit 1 4].
(** [/^[A-Z]{2}\d{2}$/] *)
Definition partialFirst : Regex.t := [exactly is_AZ 2; exactly is_digit 2].
(** [/^[A-Z]{3}$/] *)
Definition partialSecond : Regex.t := [exactly is_AZ 3].

Definition patterns : list Regex.t :=
  [currentFormat; prefixFormat; suffixFormat; datelessFormat;
   partialFirst; partialSecond].

Definition isValidUKLicensePlate (text : string) : bool :=
  let cleanText := clean text in
  if (7 <=? String.length cleanText) && test currentFormat cleanText
  then true
  else existsb (fun pattern => test pattern cleanText) patterns.

(** [patterns.some(pattern => pattern.test(t))]: the structural test on a
    string as it stands. *)
Definition structuralTest (t : string) : bool :=
  existsb (fun pattern => test pattern t) patterns.

(** The current-format shape spelled out: 2 uppercase letters, 2 digits,
    3 uppercase letters, and nothing else. *)
Definition currentShape (s : string) : bool :=
  match s with
  | String a (String b (String c (String d
      (String e (String f (String g EmptyString)))))) =>
      is_AZ a && is_AZ b && is_digit c && is_digit d
      && is_AZ e && is_AZ f && is_AZ g
  | _ => false
  end.

(** A string of a partial-fragment shape and of no complete format. *)
Definition partialOnly (p : string) : bool :=
  (test partialFirst p || test partialSecond p)
  && negb (test currentFormat p || test prefixFormat p
           || test suffixFormat p || test datelessFormat p).

(* ---------------------------------------------------------------- *)
(** ** Annotations and candidate extraction                           *)
(* ---------------------------------------------------------------- *)

(** A Vision API text annotation.  [description] is read through
    [?.], so an absent description is part of the model. *)
Record TextAnnotation : Type := {
  locale : option string;
  description : option string;
  vertices : list (nat * nat)
}.

Definition annot (d : string) : TextAnnotation :=
  {| locale := None; description := Some d; vertices := [] |}.

(** [a.description?.trim()] *)
Definition trimmed (a : TextAnnotation) : option string :=
  option_map trim (description a).

(** [textAnnotations[0]?.description?.trim()] *)
Definition fullTextOf (annotations : list TextAnnotation) : option string :=
  match annotations with
  | [] => None
  | a :: _ => trimmed a
  end.

(** a value that is a non-empty string *)
Definition truthyText (o : option string) : option string :=
  match o with
  | Some s => if truthy s then Some s else None
  | None => None
  end.

(** [annotations.slice(1).map(a => a.description?.trim()).filter(Boolean)] *)
Fixpoint keepTruthy (l : list (option string)) : list string :=
  match l with
  | [] => []
  | o :: r =>
      match truthyText o with
      | Some s => s :: keepTruthy r
      | None => keepTruthy r
      end
  end.
Definition textSegments (annotations : list TextAnnotation) : list string :=
  keepTruthy (map trimmed (tl annotations)).

(** [/[A-Z]{2}\d{2}\s*[A-Z]{3}/g] *)
Definition plateScan : Regex.t :=
  [exactly is_AZ 2; exactly is_digit 2; star is_space; exactly is_AZ 3].

(** [fullText.replace(/\n/g, ' ').replace(/\s+/g, ' ').trim()] *)
Definition cleanFullTextOf (fullText : string) : string :=
  trim (collapseSpaces (newlinesToSpaces fullText)).

(** Method 1: the plates pushed by the scan of the full text. *)
Definition method1 (fullText : option string) : list string :=
  match truthyText fullText with
  | Some ft => map clean (matchAll plateScan (cleanFullTextOf ft))
  | None => []
  end.

(** Method 2: [annotations.forEach(...)], the plates pushed for the
    individual annotations. *)
Fixpoint method2 (annotations : list TextAnnotation) : list string :=
  match annotations with
  | [] => []
  | annotation :: rest =>
      match truthyText (trimmed annotation) with
      | Some text =>
          if isValidUKLicensePlate text
          then clean text :: method2 rest
          else method2 rest
      | None => method2 rest
      end
  end.

(** Method 3: the loop over [i < textSegments.length - 1]. *)
Fixpoint method3 (segments : list string) : list string :=
  match segments with
  | a :: ((b :: _) as rest) =>
      let combined := (a ++ " " ++ b)%string in
      if isValidUKLicensePlate combined
      then clean combined :: method3 rest
      else method3 rest
  | _ => []
  end.

(** Method 4: the loop over [i < textSegments.length - 2]. *)
Fixpoint method4 (segments : list string) : list string :=
  match segments with
  | a :: ((b :: c :: _) as rest) =>
      let combined := (a ++ b ++ " " ++ c)%string in
      if isValidUKLicensePlate combined
      then clean combined :: method4 rest
      else method4 rest
  | _ => []
  end.

(** [new Set(plates)] filled in iteration order: a value already in the
    set is skipped, a new one goes to the end. *)
Definition setHas (seen : list string) (x : string) : bool :=
  existsb (String.eqb x) seen.
Fixpoint setAddAll (seen : list string) (xs : list string) : list string :=
  match xs with
  | [] => seen
  | x :: r => setAddAll (if setHas seen x then seen else seen ++ [x]) r
  end.
(** [[...new Set(plates)]] *)
Definition dedupe (plates : list string) : list string := setAddAll [] plates.

(** the values the set [seen] does not hold *)
Definition notIn (seen : list string) (y : string) : bool :=
  negb (setHas seen y).

(** The array [plates] just before the final deduplication. *)
Definition pushedPlates (fullText : option string)
           (annotations : list TextAnnotation) : list string :=
  method1 fullText ++ method2 annotations
    ++ method3 (textSegments annotations)
    ++ method4 (textSegments annotations).

(** [extractLicensePlates]; [fullText] is the variable of the enclosing
    handler that the closure reads. *)
Definition extractLicensePlates (fullText : option string)
           (annotations : list TextAnnotation) : list string :=
  dedupe (pushedPlates fullText annotations).

(** [const detectedPlates = extractLicensePlates(textAnnotations)] *)
Definition detectedPlates (textAnnotations : list TextAnnotation)
  : list string :=
  extractLicensePlates (fullTextOf textAnnotations) textAnnotations.

(* ---------------------------------------------------------------- *)
(** ** The registry call                                              *)
(* ---------------------------------------------------------------- *)

(** A JSON value as [axios] hands it over in [response.data]. *)
Inductive json : Type :=
| JUndefined
| JNull
| JBool (b : bool)
| JNum (literal : string)
| JStr (s : string)
| JArr (items : list json)
| JObj (props : list (string * json)).

Fixpoint lookupProp (key : string) (props : list (string * json)) : json :=
  match props with
  | [] => JUndefined
  | (k, v) :: r => if String.eqb k key then v else lookupProp key r
  end.

(** [v.key] or [v["key"]]: reading a property of [undefined] or [null]
    throws a TypeError ([None]); an absent property reads as
    [undefined].  None of the keys the server reads is a built-in
    property of a string, a number, a boolean or an array. *)
Definition prop (v : json) (key : string) : option json :=
  match v with
  | JUndefined | JNull => None
  | JObj props => Some (lookupProp key props)
  | _ => Some JUndefined
  end.

(** The simplified record sent to the frontend; a field holds whatever
    the registry sent at the corresponding path. *)
Record VehicleData : Type := {
  registrationNumber : json;
  year : json;
  make : json;
  model : json;
  bodystyle : json;
  color : json;
  engine : json;
  cylinders : json;
  gears : json;
  fuel_type : json;
  date_first_registered : json;
  mot_due_status : json;
  mot_due_ends : json;
  tax_due_status : json;
  tax_due_ends : json;
  power_bhp : json;
  power_kw : json;
  max_speed_mph : json;
  fuel_economy_combined : json;
  fuel_economy_extra_urban : json;
  fuel_economy_urban : json;
  co2_emission : json;
  ved_co2_band : json
}.

(** How [axios.get] settles. *)
Inductive AxiosOutcome : Type :=
| Resolved (data : json)                 (* a 2xx response *)
| Rejected (status : nat) (data : json)  (* AxiosError with a response *)
| NoResponse (message : string)          (* AxiosError without one: timeout, network *)
| Thrown.                                (* any other error *)

(** A computation that may issue [axios.get] requests. *)
Inductive Req (A : Type) : Type :=
| Ret (a : A)
| AxiosGet (url : string) (k : AxiosOutcome -> Req A).
Arguments Ret {A} a.
Arguments AxiosGet {A} url k.

Fixpoint bind {A B : Type} (m : Req A) (f : A -> Req B) : Req B :=
  match m with
  | Ret a => f a
  | AxiosGet url k => AxiosGet url (fun o => bind (k o) f)
  end.

(** Run a computation against a registry; the second component lists
    the URLs requested, in order. *)
Fixpoint run {A : Type} (registry : string -> AxiosOutcome) (m : Req A)
  : A * list string :=
  match m with
  | Ret a => (a, [])
  | AxiosGet url k =>
      let (a, urls) := run registry (k (registry url)) in (a, url :: urls)
  end.

Definition orThrow {A B : Type} (o : option A) (f : A -> option B) : option B :=
  match o with Some a => f a | None => None end.

Notation "x <- e ;; k" := (orThrow e (fun x => k))
  (at level 61, e at next level, right associativity).

Definition isSuccess (status : json) : bool :=
  match status with JStr s => String.eqb s "success" | _ => false end.

(** The [try] block after the request resolved; [None] is [null],
    returned directly or from the [catch] block. *)
Definition decodeVehicle (data : json) : option VehicleData :=
  status <- prop data "status" ;;
  if negb (isSuccess status) then None else
  apiData <- prop data "data" ;;
  reg <- prop apiData "registration number" ;;
  vd <- prop apiData "vehicle_description" ;;
  v_year <- prop vd "year" ;;
  v_make <- prop vd "make" ;;
  v_model <- prop vd "model" ;;
  v_bodystyle <- prop vd "bodystyle" ;;
  v_color <- prop vd "color" ;;
  v_engine <- prop vd "engine" ;;
  v_cylinders <- prop vd "cylinders" ;;
  v_gears <- prop vd "gears" ;;
  v_fuel <- prop vd "fuel_type" ;;
  vr <- prop apiData "vehicle_registration" ;;
  v_first <- prop vr "date_first_registered" ;;
  dues <- prop apiData "mot_tax_dues" ;;
  mot <- prop dues "mot_due" ;;
  v_mot_status <- prop mot "status" ;;
  v_mot_ends <- prop mot "ends on" ;;
  tax <- prop dues "tax_due" ;;
  v_tax_status <- prop tax "status" ;;
  v_tax_ends <- prop tax "ends on" ;;
  perf <- prop apiData "vehicle_performance" ;;
  power <- prop perf "power" ;;
  v_bhp <- prop power "bhp" ;;
  v_kw <- prop power "kw" ;;
  speed <- prop perf "max_speed" ;;
  v_mph <- prop speed "mph" ;;
  eco <- prop apiData "fuel_economy" ;;
  combined <- prop eco "combined" ;;
  v_combined <- prop combined "mpg" ;;
  extra <- prop eco "extra_urban" ;;
  v_extra <- prop extra "mpg" ;;
  urban <- prop eco "urban_cold" ;;
  v_urban <- prop urban "mpg" ;;
  co2 <- prop apiData "co2_emissions_figures" ;;
  v_co2 <- prop co2 "co2_emission" ;;
  v_band <- prop co2 "ved_co2_band" ;;
  Some {| registrationNumber := reg;
          year := v_year; make := v_make; model := v_model;
          bodystyle := v_bodystyle; color := v_color; engine := v_engine;
          cylinders := v_cylinders; gears := v_gears; fuel_type := v_fuel;
          date_first_registered := v_first;
          mot_due_status := v_mot_status; mot_due_ends := v_mot_ends;
          tax_due_status := v_tax_status; tax_due_ends := v_tax_ends;
          power_bhp := v_bhp; power_kw := v_kw; max_speed_mph := v_mph;
          fuel_economy_combined := v_combined;
          fuel_economy_extra_urban := v_extra;
          fuel_economy_urban := v_urban;
          co2_emission := v_co2; ved_co2_band := v_band |}.

Definition registryUrl (cleanReg : string) : string :=
  ("https://api.vehicledatabases.com/uk-registration-decode/" ++ cleanReg)%string.

(** [lookupVehicle]: [Some] vehicle data or [None] for [null].  The
    [catch] block returns [null] on each of its branches; they differ
    in what is written to the console only. *)
Definition lookupVehicle (registrationNumber : string)
  : Req (option VehicleData) :=
  let cleanReg := toUpperCase (stripSpaces registrationNumber) in
  AxiosGet (registryUrl cleanReg) (fun outcome =>
    Ret (match outcome with
         | Resolved data => decodeVehicle data
         | Rejected status _ => if status =? 404 then None else None
         | NoResponse _ => None
         | Thrown => None
         end)).


(* ---------------------------------------------------------------- *)
(** ** The [/upload] handler, from [textAnnotations] on               *)
(* ---------------------------------------------------------------- *)

(** The object given to [res.json]; [None] is an absent key, and
    [vehicleData = Some None] is the key holding [null]. *)
Record Response : Type := {
  hasText : bool;
  text : list TextAnnotation;
  fullText : option string;
  allText : option string;
  licensePlates : option (list string);
  vehicleData : option (option VehicleData);
  message : string
}.

(** [/^\d{2}\.\d{2}\.\d{2,4}\s+\d{1,2}:\d{2}:\d{2}$/] *)
Definition timestampShape : Regex.t :=
  [exactly is_digit 2; exactly (is_char ".") 1; exactly is_digit 2;
   exactly (is_char ".") 1; between is_digit 2 4; plus is_space;
   between is_digit 1 2; exactly (is_char ":") 1; exactly is_digit 2;
   exactly (is_char ":") 1; exactly is_digit 2].

Definition orEmpty (o : option string) : string :=
  match o with Some s => s | None => "" end.

(** [/.../.test(fullText?.trim() || '')] *)
Definition isTimestamp (fullText : option string) : bool :=
  test timestampShape (orEmpty (truthyText (option_map trim fullText))).

(** [fullText && fullText.trim().length < 2], as a truth value *)
Definition isShortMeaningless (fullText : option string) : bool :=
  match truthyText fullText with
  | Some ft => String.length (trim ft) <? 2
  | None => false
  end.

(** [textAnnotations.map(a => a.description).join(' | ')] *)
Definition allTextOf (textAnnotations : list TextAnnotation) : string :=
  join " | " (map (fun a => orEmpty (description a)) textAnnotations).

Definition upload (textAnnotations : option (list TextAnnotation))
  : Req Response :=
  match textAnnotations with
  | None | Some [] =>
      Ret {| hasText := false; text := []; fullText := None;
             allText := None; licensePlates := None; vehicleData := None;
             message := "No text detected in the image" |}
  | Some annotations =>
      let ft := fullTextOf annotations in
      let plates := detectedPlates annotations in
      let all := allTextOf annotations in
      match plates with
      | first :: _ =>
          bind (lookupVehicle first) (fun vehicle =>
            Ret {| hasText := true; text := annotations;
                   fullText := Some (join ", " plates);
                   allText := Some all;
                   licensePlates := Some plates;
                   vehicleData := Some vehicle;
                   message :=
                     match vehicle with
                     | Some _ =>
                         ("License plate detected: " ++ first
                            ++ " - Vehicle found!")%string
                     | None =>
                         ("License plate(s) detected: " ++ join ", " plates
                            ++ " - Vehicle not found in database")%string
                     end |})
      | [] =>
          let meaningful :=
            match truthyText ft with
            | Some t =>
                if negb (isTimestamp ft) && negb (isShortMeaningless ft)
                then Some t else None
            | None => None
            end in
          match meaningful with
          | None =>
              Ret {| hasText := false; text := []; fullText := None;
                     allText := None; licensePlates := Some [];
                     vehicleData := None;
                     message :=
                       "No meaningful text or license plates detected in the image" |}
          | Some t =>
              Ret {| hasText := true; text := annotations;
                     fullText := Some t; allText := Some all;
                     licensePlates := Some []; vehicleData := None;
                     message :=
                       "Text detected but no valid UK license plates found" |}
          end
      end
  end.

(* ---------------------------------------------------------------- *)
(** ** The [/vehicle-lookup] endpoint                                 *)
(* ---------------------------------------------------------------- *)







(** Reading along a path of keys, as in [a.b.c]. *)
Fixpoint path (v : json) (keys : list string) : option json :=
  match keys with
  | [] => Some v
  | k :: ks => match prop v k with Some w => path w ks | None => None end
  end.

Definition nullish (v : json) : bool :=
  match v with JUndefined | JNull => true | _ => false end.

(** The paths of the registry body whose properties [lookupVehicle]
    reads. *)
Definition objectPaths : list (list string) :=
  [ ["data"];
    ["data"; "vehicle_description"];
    ["data"; "vehicle_registration"];
    ["data"; "mot_tax_dues"];
    ["data"; "mot_tax_dues"; "mot_due"];
    ["data"; "mot_tax_dues"; "tax_due"];
    ["data"; "vehicle_performance"];
    ["data"; "vehicle_performance"; "power"];
    ["data"; "vehicle_performance"; "max_speed"];
    ["data"; "fuel_economy"];
    ["data"; "fuel_economy"; "combined"];
    ["data"; "fuel_economy"; "extra_urban"];
    ["data"; "fuel_economy"; "urban_cold"];
    ["data"; "co2_emissions_figures"] ].

(** the value at the path exists and is neither [undefined] nor [null] *)
Definition holdsObject (data : json) (keys : list string) : bool :=
  match path data keys with
  | Some v => negb (nullish v)
  | None => false
  end.

(** [v.key] for a [v] that is neither [undefined] nor [null] *)
Definition member (v : json) (key : string) : json :=
  match v with JObj props => lookupProp key props | _ => JUndefined end.

(** The record [lookupVehicle] builds, field by field, when every read
    succeeds. *)
Definition projection (data : json) : VehicleData :=
  let apiData := member data "data" in
  let vd := member apiData "vehicle_description" in
  let dues := member apiData "mot_tax_dues" in
  let perf := member apiData "vehicle_performance" in
  let eco := member apiData "fuel_economy" in
  let co2 := member apiData "co2_emissions_figures" in
  {| registrationNumber := member apiData "registration number";
     year := member vd "year";
     make := member vd "make";
     model := member vd "model";
     bodystyle := member vd "bodystyle";
     color := member vd "color";
     engine := member vd "engine";
     cylinders := member vd "cylinders";
     gears := member vd "gears";
     fuel_type := member vd "fuel_type";
     date_first_registered :=
       member (member apiData "vehicle_registration") "date_first_registered";
     mot_due_status := member (member dues "mot_due") "status";
     mot_due_ends := member (member dues "mot_due") "ends on";
     tax_due_status := member (member dues "tax_due") "status";
     tax_due_ends := member (member dues "tax_due") "ends on";
     power_bhp := member (member perf "power") "bhp";
     power_kw := member (member perf "power") "kw";
     max_speed_mph := member (member perf "max_speed") "mph";
     fuel_economy_combined := member (member eco "combined") "mpg";
     fuel_economy_extra_urban := member (member eco "extra_urban") "mpg";
     fuel_economy_urban := member (member eco "urban_cold") "mpg";
     co2_emission := member co2 "co2_emission";
     ved_co2_band := member co2 "ved_co2_band" |}.

(** the body's [status] is the string ['success'] *)
Definition statusOk (data : json) : bool :=
  match prop data "status" with
  | Some status => isSuccess status
  | None => false
  end.

(** [[A-Z0-9]] *)
Definition is_alnum (c : ascii) : bool := is_AZ c || is_digit c.

(** the characters of a timestamp: digits, [.], [:] and whitespace *)
Definition is_stamp (c : ascii) : bool :=
  is_digit c || is_char "." c || is_char ":" c || is_space c.

End Server.

(* ================================================================== *)
(** * The plate matcher on strings of UTF-16 code units               *)
(* ================================================================== *)

Module Utf16.
Import Regex.

(** A JavaScript string: its UTF-16 code units; [length] counts them. *)
Definition ustring : Type := list N.

(** The code units of an 8-bit string. *)
Fixpoint unitsOf (s : string) : ustring :=
  match s with
  | EmptyString => []
  | String c r => N_of_ascii c :: unitsOf r
  end.

Definition isAscii (c : ascii) : bool := code c <? 128.

(** [\s]: U+0009-000D, U+0020, U+00A0, U+1680, U+2000-200A, U+2028,
    U+2029, U+202F, U+205F, U+3000, U+FEFF *)
Definition is_space (u : N) : bool :=
  (((9 <=? u) && (u <=? 13)) || (u =? 32) || (u =? 160) || (u =? 5760)
   || ((8192 <=? u) && (u <=? 8202)) || (u =? 8232) || (u =? 8233)
   || (u =? 8239) || (u =? 8287) || (u =? 12288) || (u =? 65279))%N.

(** The code units other than a-z whose uppercase form holds an ASCII
    letter: U+00DF, U+0131, U+0149, U+017F, U+01F0, U+1E96-1E9A and the
    ligatures U+FB00-FB06, each with its uppercase form. *)
Definition specialUpper : list (N * list N) :=
  [ (223, [83; 83]);        (* sharp s -> SS *)
    (305, [73]);            (* dotless i -> I *)
    (329, [700; 78]);       (* 'n -> U+02BC N *)
    (383, [83]);            (* long s -> S *)
    (496, [74; 780]);       (* j caron -> J U+030C *)
    (7830, [72; 817]);      (* h line below -> H U+0331 *)
    (7831, [84; 776]);      (* t diaeresis -> T U+0308 *)
    (7832, [87; 778]);      (* w ring -> W U+030A *)
    (7833, [89; 778]);      (* y ring -> Y U+030A *)
    (7834, [65; 702]);      (* a half ring -> A U+02BE *)
    (64256, [70; 70]);      (* ff *)
    (64257, [70; 73]);      (* fi *)
    (64258, [70; 76]);      (* fl *)
    (64259, [70; 70; 73]);  (* ffi *)
    (64260, [70; 70; 76]);  (* ffl *)
    (64261, [83; 84]);      (* long s t -> ST *)
    (64262, [83; 84]) ]%N.  (* st *)

Fixpoint assocUnit (u : N) (table : list (N * list N)) : option (list N) :=
  match table with
  | [] => None
  | (k, v) :: r => if N.eqb k u then Some v else assocUnit u r
  end.

(** The uppercase form of one code unit, exact wherever it holds an ASCII
    letter or digit.  The uppercase form of any other code unit holds no
    ASCII letter and no digit; the unit itself stands for it. *)
Definition upperUnit (u : N) : list N :=
  if ((97 <=? u) && (u <=? 122))%N then [(u - 32)%N]
  else match assocUnit u specialUpper with
       | Some l => l
       | None => [u]
       end.

(** [s.toUpperCase()] *)
Definition toUpperCase (s : ustring) : ustring := flat_map upperUnit s.

(** [s.replace(/\s+/g, '')] *)
Definition stripSpaces (s : ustring) : ustring :=
  filter (fun u => negb (is_space u)) s.

(** The 8-bit string with these code units, when none exceeds 255. *)
Fixpoint asBytes (s : ustring) : option string :=
  match s with
  | [] => Some EmptyString
  | u :: r =>
      if (u <? 256)%N
      then option_map (String (ascii_of_N u)) (asBytes r)
      else None
  end.

(** [/^re$/.test(s)] for a pattern built from the classes [A-Z] and
    [\d]: a code unit above 255 is in neither class, so a string that
    holds one does not match. *)
Definition test (re : Regex.t) (s : ustring) : bool :=
  match asBytes s with
  | Some bytes => Regex.test re bytes
  | None => false
  end.

(** [isValidUKLicensePlate] of server.ts on any string. *)
Definition isValidUKLicensePlate (text : ustring) : bool :=
  let cleanText := toUpperCase (stripSpaces text) in
  if (7 <=? List.length cleanText) && test Server.currentFormat cleanText
  then true
  else existsb (fun pattern => test pattern cleanText) Server.patterns.

End Utf16.

(* ================================================================== *)
(** * motorDexCamera.tsx: the on-device collection                    *)
(* ================================================================== *)

Module App.

(** The fields of the app's [VehicleData] that [saveToCollection] reads. *)
Record VehicleData : Type := {
  make : string;
  model : string
}.

Record CollectedVehicle : Type := {
  id : string;
  item_make : string;
  item_model : string;
  imageUri : string;
  dateSpotted : string;
  fullModel : string
}.

(** What is stored under the key ['vehicleCollection'], as
    [JSON.parse] reads it back; [None] when the key is absent. *)
Definition Storage : Type := option (list CollectedVehicle).

(** What the device contributes to one call: whether the storage
    operations reject, and the clock. *)
Record Device : Type := {
  getItemRejects : bool;
  setItemRejects : bool;
  dateNow : string;          (* [Date.now().toString()] *)
  dateIso : string           (* [new Date().toISOString()] *)
}.

Inductive AlertShown : Type :=
| AlreadyCollected
| VehicleCollected (total : nat)
| SaveFailed.

Record Saved : Type := {
  returned : bool;
  stored : Storage;
  alert : AlertShown
}.

(** [`${vehicle.make} ${vehicle.model}`.toLowerCase()] *)
Definition fullModelOf (vehicle : VehicleData) : string :=
  toLowerCase (make vehicle ++ " " ++ model vehicle)%string.

Definition saveToCollection (dev : Device) (vehicle : VehicleData)
           (uri : string) (storage : Storage) : Saved :=
  if getItemRejects dev
  then {| returned := false; stored := storage; alert := SaveFailed |}
  else
    let collection := match storage with Some c => c | None => [] end in
    let key := fullModelOf vehicle in
    let isDuplicate :=
      existsb (fun item => String.eqb (fullModel item) key) collection in
    if isDuplicate
    then {| returned := false; stored := storage; alert := AlreadyCollected |}
    else
      let newVehicle :=
        {| id := dateNow dev;
           item_make := make vehicle;
           item_model := model vehicle;
           imageUri := uri;
           dateSpotted := dateIso dev;
           fullModel := key |} in
      let collection' := collection ++ [newVehicle] in
      if setItemRejects dev
      then {| returned := false; stored := storage; alert := SaveFailed |}
      else {| returned := true; stored := Some collection';
              alert := VehicleCollected (List.length collection') |}.

(** VehicleCollection.tsx, [clearCollection] once confirmed:
    [AsyncStorage.removeItem('vehicleCollection')]. *)
Definition clearCollection (removeItemRejects : bool) (storage : Storage)
  : Storage :=
  if removeItemRejects then storage else None.

(** What the app does to the stored collection, one operation after
    the other. *)
Inductive Op : Type :=
| Save (dev : Device) (vehicle : VehicleData) (uri : string)
| Clear (removeItemRejects : bool).

Definition step (storage : Storage) (op : Op) : Storage :=
  match op with
  | Save dev vehicle uri => stored (saveToCollection dev vehicle uri storage)
  | Clear rejects => clearCollection rejects storage
  end.

Definition records (storage : Storage) : list CollectedVehicle :=
  match storage with Some c => c | None => [] end.

(** No two stored records share a [fullModel]. *)
Definition uniqueKeys (storage : Storage) : Prop :=
  NoDup (map fullModel (records storage)).

(* ---------------------------------------------------------------- *)
(** ** VehicleCollection.tsx: the collection screen                   *)
(* ---------------------------------------------------------------- *)

(** [loadCollection]: the list shown; it stays empty when the key is
    absent or [getItem] rejects. *)
Definition loadCollection (getItemRejects : bool) (storage : Storage)
  : list CollectedVehicle :=
  if getItemRejects then []
  else match storage with Some c => c | None => [] end.

(** [xs.sort()] on strings: ascending order of code units. *)
Fixpoint insertSorted (x : string) (l : list string) : list string :=
  match l with
  | [] => [x]
  | y :: r => if String.leb x y then x :: l else y :: insertSorted x r
  end.
Definition sortStrings (l : list string) : list string :=
  fold_right insertSorted [] l.

(** the order of [sort()]: [a] does not come after [b] *)
Definition ascending (a b : string) : Prop := String.leb a b = true.

(** [[...new Set(collection.map(vehicle => vehicle.make))].sort()] *)
Definition uniqueMakes (collection : list CollectedVehicle) : list string :=
  sortStrings (Server.dedupe (map item_make collection)).

(** [hay.includes(needle)] *)
Fixpoint includes (hay needle : string) : bool :=
  String.prefix needle hay
  || match hay with
     | EmptyString => false
     | String _ r => includes r needle
     end.

(** The list shown for a selected make and a search query. *)
Definition filterCollection (collection : list CollectedVehicle)
           (selectedMake : option string) (searchQuery : string)
  : list CollectedVehicle :=
  let filtered :=
    match Server.truthyText selectedMake with
    | Some selected =>
        filter (fun vehicle => String.eqb (item_make vehicle) selected)
               collection
    | None => collection
    end in
  if truthy searchQuery
  then filter (fun vehicle =>
                 includes (toLowerCase (item_make vehicle))
                          (toLowerCase searchQuery)
                 || includes (toLowerCase (item_model vehicle))
                             (toLowerCase searchQuery))
              filtered
  else filtered.

(* ---------------------------------------------------------------- *)
(** ** motorDexCamera.tsx: what the app does with the server's answer *)
(* ---------------------------------------------------------------- *)







End App.

(* ================================================================== *)
(** * The model at work on small inputs                               *)
(* ================================================================== *)

Section Examples.
Import Regex Server.

Example valid_current : isValidUKLicensePlate "YF65CVK" = true.
Proof. reflexivity. Qed.
Example valid_prefix : isValidUKLicensePlate "A123 BCD" = true.
Proof. reflexivity. Qed.
Example valid_suffix : isValidUKLicensePlate "ABC 123D" = true.
Proof. reflexivity. Qed.
Example valid_dateless : isValidUKLicensePlate "ABC 1234" = true.
Proof. reflexivity. Qed.
Example invalid_digits : isValidUKLicensePlate "65" = false.
Proof. reflexivity. Qed.
Example invalid_two_letters : isValidUKLicensePlate "YF" = false.
Proof. reflexivity. Qed.
Example trim_ex : trim "  a b  " = "a b".
Proof. reflexivity. Qed.
Example collapse_ex : collapseSpaces "a  b   c" = "a b c".
Proof. reflexivity. Qed.
Example yf_pushed :
  pushedPlates (Some "YF65CVK plate photo")
    (map annot ["YF65CVK plate photo"; "YF"; "65"; "CVK"])
  = ["YF65CVK"; "CVK"; "YF65"; "YF65CVK"].
Proof. reflexivity. Qed.
Example ab_detected :
  detectedPlates (map annot ["AB12 CDE"; "AB12"; "CDE"])
  = ["AB12CDE"; "AB12"; "CDE"].
Proof. reflexivity. Qed.
Example scan_space :
  method1 (Some "AB 12 CDE") = [] /\ method1 (Some "AB12 CDE") = ["AB12CDE"].
Proof. split; reflexivity. Qed.
Example scan_overlap :
  method1 (Some "AB12CDE34FGH") = ["AB12CDE"].
Proof. reflexivity. Qed.

Example timestamp_no_plate :
  detectedPlates [annot "12.05.24 14:32:10"] = []
  /\ isTimestamp (Some "12.05.24 14:32:10") = true.
Proof. split; reflexivity. Qed.

Example upload_timestamp registry :
  message (fst (run registry (upload (Some [annot "12.05.24 14:32:10"]))))
  = "No meaningful text or license plates detected in the image".
Proof. reflexivity. Qed.

End Examples.

(* ================================================================== *)
(** * Facts about characters and strings                              *)
(* ================================================================== *)

Section CharFacts.

Ltac by_cases c :=
  destruct c as [[] [] [] [] [] [] [] []]; vm_compute; intros;
  try reflexivity; try discriminate; auto.

Lemma AZ_not_space c : is_AZ c = true -> is_space c = false.
Proof. by_cases c. Qed.

Lemma AZ_upper c : is_AZ c = true -> upper c = c.
Proof. by_cases c. Qed.

Lemma digit_not_space c : is_digit c = true -> is_space c = false.
Proof. by_cases c. Qed.

Lemma digit_upper c : is_digit c = true -> upper c = c.
Proof. by_cases c. Qed.

Lemma digit_not_AZ c : is_digit c = true -> is_AZ c = false.
Proof. by_cases c. Qed.

Lemma upper_upper c : upper (upper c) = upper c.
Proof. by_cases c. Qed.

Lemma upper_space c : is_space (upper c) = is_space c.
Proof. by_cases c. Qed.

Lemma upper_not_az c : is_az (upper c) = false.
Proof. by_cases c. Qed.

Lemma upper_AZ_or c : is_AZ (upper c) = is_AZ c || is_az c.
Proof. by_cases c. Qed.

End CharFacts.

Section StringFacts.

Lemma sapp_assoc (a b c : string) : ((a ++ b) ++ c = a ++ (b ++ c))%string.
Proof. induction a; simpl; congruence. Qed.

Lemma sapp_nil_r (a : string) : (a ++ "")%string = a.
Proof. induction a; simpl; congruence. Qed.

Lemma slength_app (a b : string) :
  String.length (a ++ b) = String.length a + String.length b.
Proof. induction a; simpl; congruence. Qed.

Lemma substring_prefix (a b : string) :
  substring 0 (String.length a) (a ++ b) = a.
Proof.
  induction a as [|c a IH]; simpl.
  - destruct b; reflexivity.
  - now rewrite IH.
Qed.

Lemma stripSpaces_app (a b : string) :
  stripSpaces (a ++ b) = (stripSpaces a ++ stripSpaces b)%string.
Proof.
  induction a as [|c a IH]; simpl; [reflexivity|].
  destruct (is_space c); simpl; now rewrite IH.
Qed.

Lemma toUpperCase_app (a b : string) :
  toUpperCase (a ++ b) = (toUpperCase a ++ toUpperCase b)%string.
Proof. induction a; simpl; congruence. Qed.

Lemma clean_app (a b : string) :
  Server.clean (a ++ b) = (Server.clean a ++ Server.clean b)%string.
Proof.
  unfold Server.clean. now rewrite stripSpaces_app, toUpperCase_app.
Qed.

(** Normalising twice is normalising once. *)
Lemma clean_idempotent (s : string) :
  Server.clean (Server.clean s) = Server.clean s.
Proof.
  unfold Server.clean.
  induction s as [|c s IH]; simpl; [reflexivity|].
  destruct (is_space c) eqn:E; simpl; [exact IH|].
  rewrite upper_space, E. simpl. now rewrite upper_upper, IH.
Qed.

Lemma clean_spaces (s : string) :
  Regex.allChars is_space s = true -> Server.clean s = "".
Proof.
  unfold Server.clean.
  induction s as [|c s IH]; simpl; [reflexivity|].
  intros H. apply andb_prop in H as [Hc Hs]. rewrite Hc. auto.
Qed.

Lemma clean_AZ (s : string) :
  Regex.allChars is_AZ s = true -> Server.clean s = s.
Proof.
  unfold Server.clean.
  induction s as [|c s IH]; simpl; [reflexivity|].
  intros H. apply andb_prop in H as [Hc Hs].
  rewrite (AZ_not_space _ Hc). simpl. now rewrite (AZ_upper _ Hc), IH.
Qed.

Lemma clean_digits (s : string) :
  Regex.allChars is_digit s = true -> Server.clean s = s.
Proof.
  unfold Server.clean.
  induction s as [|c s IH]; simpl; [reflexivity|].
  intros H. apply andb_prop in H as [Hc Hs].
  rewrite (digit_not_space _ Hc). simpl. now rewrite (digit_upper _ Hc), IH.
Qed.

(** A normalised string holds no whitespace and no lowercase letter. *)
Lemma clean_normal (s : string) :
  Regex.allChars (fun c => negb (is_space c) && negb (is_az c))
                 (Server.clean s) = true.
Proof.
  unfold Server.clean.
  induction s as [|c s IH]; simpl; [reflexivity|].
  destruct (is_space c) eqn:E; simpl; [exact IH|].
  now rewrite upper_space, E, upper_not_az, IH.
Qed.

End StringFacts.

(* ================================================================== *)
(** * The matcher computes the language of its pattern                *)
(* ================================================================== *)

Section RegexFacts.
Import Regex.

Lemma rep_sound (p : ascii -> bool) (k : string -> option nat) :
  forall s lo hi n,
    rep p lo hi k s = Some n ->
    exists run rest m,
      s = (run ++ rest)%string
      /\ allChars p run = true
      /\ lo <= String.length run
      /\ within hi (String.length run)
      /\ k rest = Some m
      /\ n = String.length run + m.
Proof.
  assert (Hstop : forall s lo hi n,
             match lo with 0 => k s | S _ => None end = Some n ->
             exists run rest m,
               s = (run ++ rest)%string /\ allChars p run = true
               /\ lo <= String.length run /\ within hi (String.length run)
               /\ k rest = Some m /\ n = String.length run + m).
  { intros s lo hi n H. destruct lo; [|discriminate].
    exists "", s, n. simpl. repeat split; auto.
    destruct hi; simpl; lia. }
  induction s as [|c r IH]; intros lo hi n H; simpl in H.
  - now apply Hstop.
  - destruct (p c && room hi) eqn:E; [|now apply Hstop].
    destruct (rep p (pred lo) (less hi) k r) as [j|] eqn:R; [|now apply Hstop].
    injection H as <-.
    apply IH in R as (run & rest & m & -> & Hall & Hlo & Hhi & Hk & ->).
    apply andb_prop in E as [Hc Hroom].
    exists (String c run), rest, m. simpl. rewrite Hc, Hall.
    repeat split; auto; try lia.
    destruct hi as [[|h]|]; simpl in *; try discriminate; lia.
Qed.

Lemma rep_complete (p : ascii -> bool) (k : string -> option nat) :
  forall run rest lo hi,
    allChars p run = true ->
    lo <= String.length run ->
    within hi (String.length run) ->
    k rest <> None ->
    rep p lo hi k (run ++ rest) <> None.
Proof.
  induction run as [|c run IH]; intros rest lo hi Hall Hlo Hhi Hk; simpl in *.
  - assert (lo = 0) as -> by lia.
    destruct rest as [|d rest]; simpl; [exact Hk|].
    destruct (p d && room hi); [|exact Hk].
    destruct (rep p 0 (less hi) k rest); [discriminate|exact Hk].
  - apply andb_prop in Hall as [Hc Hall]. rewrite Hc.
    assert (Hroom : room hi = true).
    { destruct hi as [[|h]|]; simpl in *; auto; lia. }
    rewrite Hroom. simpl.
    assert (Hrec : rep p (pred lo) (less hi) k (run ++ rest) <> None).
    { apply IH; auto; [lia|].
      destruct hi as [[|h]|]; simpl in *; auto; lia. }
    destruct (rep p (pred lo) (less hi) k (run ++ rest));
      [discriminate|contradiction].
Qed.

Lemma exec_sound (anchored : bool) :
  forall re s n,
    exec re anchored s = Some n ->
    exists m rest,
      s = (m ++ rest)%string /\ String.length m = n /\ Matches re m
      /\ (anchored = true -> rest = "").
Proof.
  induction re as [|a re IH]; intros s n H; simpl in H.
  - unfold finish in H. destruct anchored.
    + destruct s; [|discriminate]. injection H as <-.
      exists "", "". repeat split; auto. constructor.
    + injection H as <-. exists "", s. repeat split; auto.
      constructor. discriminate.
  - apply rep_sound in H as (run & rest & j & -> & Hall & Hlo & Hhi & Hk & ->).
    apply IH in Hk as (m & rest' & -> & <- & HM & Hend).
    exists (run ++ m)%string, rest'.
    rewrite sapp_assoc, slength_app. repeat split; auto.
    constructor; [repeat split|]; auto.
Qed.

Lemma exec_complete (anchored : bool) :
  forall re m rest,
    Matches re m ->
    (anchored = true -> rest = "") ->
    exec re anchored (m ++ rest) <> None.
Proof.
  intros re m rest HM. revert rest.
  induction HM as [|a re run tail (Hall & Hlo & Hhi) HM IH]; intros rest Hend.
  - simpl. unfold finish. destruct anchored; [|discriminate].
    rewrite Hend by reflexivity. discriminate.
  - simpl. rewrite sapp_assoc. apply rep_complete; auto.
Qed.

(** [/^re$/.test(s)] holds exactly for the words of [re]. *)
Lemma test_correct (re : Regex.t) (s : string) :
  test re s = true <-> Matches re s.
Proof.
  unfold test. split.
  - destruct (exec re true s) as [n|] eqn:E; [|discriminate]. intros _.
    apply exec_sound in E as (m & rest & -> & _ & HM & Hend).
    rewrite (Hend eq_refl), sapp_nil_r. exact HM.
  - intros HM.
    pose proof (exec_complete true re s "" HM (fun _ => eq_refl)) as H.
    rewrite sapp_nil_r in H. destruct (exec re true s); congruence.
Qed.

(** Every reported match is a substring in the language of [re]. *)
Lemma matchAllFrom_sound (re : Regex.t) :
  forall s skip x,
    In x (matchAllFrom re skip s) ->
    exists pre post, s = (pre ++ x ++ post)%string /\ Matches re x.
Proof.
  induction s as [|c r IH]; intros skip x Hin; cbn [matchAllFrom] in Hin.
  - destruct skip; [|contradiction].
    destruct (exec re false "") as [n|] eqn:E; [|contradiction].
    destruct Hin as [<-|[]].
    apply exec_sound in E as (m & rest & Hs & _ & HM & _).
    destruct m; [|discriminate]. exists "", "". split; auto.
  - destruct skip as [|j].
    + destruct (exec re false (String c r)) as [n|] eqn:E.
      * destruct Hin as [<-|Hin].
        -- apply exec_sound in E as (m & rest & Hs & <- & HM & _).
           rewrite Hs, substring_prefix. exists "", rest. split; auto.
        -- apply IH in Hin as (pre & post & -> & HM).
           exists (String c pre), post. split; auto.
      * apply IH in Hin as (pre & post & -> & HM).
        exists (String c pre), post. split; auto.
    + apply IH in Hin as (pre & post & -> & HM).
      exists (String c pre), post. split; auto.
Qed.

(** A text that holds a word of [re] yields at least one match. *)
Lemma matchAll_complete (re : Regex.t) :
  forall pre x post,
    Matches re x -> matchAll re (pre ++ x ++ post) <> [].
Proof.
  unfold matchAll.
  induction pre as [|c pre IH]; intros x post HM.
  - pose proof (exec_complete false re x post HM
                  (fun H => False_ind _ (diff_false_true H))) as H.
    simpl. destruct (x ++ post)%string eqn:E; simpl.
    + destruct (exec re false ""); [discriminate|contradiction].
    + destruct (exec re false (String a s)); [discriminate|contradiction].
  - simpl. destruct (exec re false _); [discriminate|]. now apply IH.
Qed.

Lemma Tiling_skip_char (re : Regex.t) (c : ascii) (s : string) ms :
  Tiling re s ms -> Tiling re (String c s) ms.
Proof.
  intros H. destruct H as [gap|gap m rest ms HM HT].
  - constructor.
  - apply (Tiling_match re (String c gap) m rest ms HM HT).
Qed.

(** The search resumes right after a match. *)
Lemma matchAllFrom_skip (re : Regex.t) (a b : string) :
  matchAllFrom re (String.length a) (a ++ b) = matchAllFrom re 0 b.
Proof.
  induction a as [|c a IH]; [reflexivity|]. cbn [String.length append].
  cbn [matchAllFrom]. exact IH.
Qed.

(** The reported matches tile the text from left to right. *)
Lemma matchAll_tiling (re : Regex.t) (s : string) :
  Tiling re s (matchAll re s).
Proof.
  unfold matchAll.
  assert (H : forall k s, String.length s <= k ->
                          Tiling re s (matchAllFrom re 0 s));
    [|now apply (H (String.length s))].
  clear s. induction k as [|k IH]; intros s Hk.
  - destruct s; [|simpl in Hk; lia]. cbn [matchAllFrom].
    destruct (exec re false "") as [n|] eqn:E; [|constructor].
    apply exec_sound in E as (m & rest & Hs & _ & HM & _).
    destruct m; [|discriminate].
    apply (Tiling_match re "" "" "" [] HM). constructor.
  - destruct s as [|c r].
    + cbn [matchAllFrom].
      destruct (exec re false "") as [n|] eqn:E; [|constructor].
      apply exec_sound in E as (m & rest & Hs & _ & HM & _).
      destruct m; [|discriminate].
      apply (Tiling_match re "" "" "" [] HM). constructor.
    + simpl in Hk. cbn [matchAllFrom].
      destruct (exec re false (String c r)) as [n|] eqn:E.
      * apply exec_sound in E as (m & rest & Hs & <- & HM & _).
        rewrite Hs, substring_prefix. destruct m as [|d m].
        -- simpl in Hs. subst rest. cbn [String.length pred].
           apply (Tiling_match re "" "" (String c r) _ HM).
           apply Tiling_skip_char, IH. lia.
        -- injection Hs as -> ->. cbn [String.length pred].
           rewrite matchAllFrom_skip.
           apply (Tiling_match re "" (String d m) rest _ HM).
           apply IH. rewrite slength_app in Hk. lia.
      * apply Tiling_skip_char, IH. lia.
Qed.

End RegexFacts.

(* ================================================================== *)
(** * The global match is the leftmost scan                           *)
(* ================================================================== *)

Section ScanFacts.
Import Regex.

Lemma sapp_cancel (a b c : string) : (a ++ b)%string = (a ++ c)%string -> b = c.
Proof. induction a as [|x a IH]; simpl; intros H; [exact H|]. injection H. auto. Qed.

(** Two ways of cutting one string: the shorter head is a head of the
    longer one. *)
Lemma sapp_split (a b c d : string) :
  (a ++ b)%string = (c ++ d)%string ->
  String.length a <= String.length c ->
  exists e, c = (a ++ e)%string /\ b = (e ++ d)%string.
Proof.
  revert c. induction a as [|x a IH]; intros c H L.
  - exists c. split; [reflexivity|exact H].
  - destruct c as [|y c]; [simpl in L; lia|].
    simpl in H. injection H as <- H. simpl in L.
    destruct (IH c H) as (e & -> & ->); [lia|].
    exists e. split; reflexivity.
Qed.

Lemma exec_StartsWord (re : Regex.t) (s : string) :
  exec re false s <> None <-> StartsWord re s.
Proof.
  split.
  - destruct (exec re false s) as [n|] eqn:E; [|congruence]. intros _.
    apply exec_sound in E as (m & rest & -> & _ & HM & _).
    exists m, rest. auto.
  - intros (m & post & -> & HM). apply exec_complete; auto. discriminate.
Qed.

(** The match found at a place is the word that starts there. *)
Lemma exec_selects (re : Regex.t) (m post : string) :
  Unambiguous re -> Matches re m ->
  exec re false (m ++ post) = Some (String.length m).
Proof.
  intros (_ & Hu) HM.
  destruct (exec re false (m ++ post)) as [n|] eqn:E.
  - apply exec_sound in E as (m' & rest & Hs & <- & HM' & _).
    now rewrite (Hu m m' post rest HM HM' Hs).
  - exfalso. revert E. apply exec_complete; auto. discriminate.
Qed.

Lemma matchAllFrom_none (re : Regex.t) (s : string) :
  (forall pre tail, s = (pre ++ tail)%string -> ~ StartsWord re tail) ->
  matchAllFrom re 0 s = [].
Proof.
  induction s as [|c r IH]; intros H; cbn [matchAllFrom].
  - destruct (exec re false "") eqn:E; [|reflexivity].
    exfalso. apply (H "" "" eq_refl). apply exec_StartsWord. congruence.
  - destruct (exec re false (String c r)) eqn:E.
    + exfalso. apply (H "" (String c r) eq_refl).
      apply exec_StartsWord. congruence.
    + apply IH. intros pre tail ->. apply (H (String c pre) tail eq_refl).
Qed.

Lemma LeftmostScan_skip (re : Regex.t) (c : ascii) (r : string) ms :
  ~ StartsWord re (String c r) ->
  LeftmostScan re r ms -> LeftmostScan re (String c r) ms.
Proof.
  intros Hc H. destruct H as [s Hs|gap m rest ms Hg HM HS].
  - constructor. intros pre tail E. destruct pre as [|d pre].
    + simpl in E. now subst tail.
    + simpl in E. injection E as _ ->. apply (Hs pre tail eq_refl).
  - apply (Scan_found re (String c gap) m rest ms); auto.
    intros g1 g2 E Hne. destruct g1 as [|d g1].
    + simpl in E. subst g2. exact Hc.
    + simpl in E. injection E as _ ->. apply (Hg g1 g2 eq_refl Hne).
Qed.

(** The global match is a leftmost scan... *)
Lemma matchAll_LeftmostScan (re : Regex.t) (s : string) :
  Unambiguous re -> LeftmostScan re s (matchAll re s).
Proof.
  intros Hu. unfold matchAll.
  assert (H : forall k s, String.length s <= k ->
                          LeftmostScan re s (matchAllFrom re 0 s));
    [|now apply (H (String.length s))].
  clear s.
  assert (Hempty : LeftmostScan re "" (matchAllFrom re 0 "")).
  { assert (Hno : forall pre tail, "" = (pre ++ tail)%string ->
                                    ~ StartsWord re tail).
    { intros pre tail E (m & post & -> & HM).
      destruct pre; [|discriminate]. destruct m; [|discriminate].
      now apply (proj1 Hu). }
    rewrite (matchAllFrom_none re "" Hno). now constructor. }
  induction k as [|k IH]; intros s Hk.
  - destruct s; [exact Hempty|simpl in Hk; lia].
  - destruct s as [|c r]; [exact Hempty|]. simpl in Hk.
    cbn [matchAllFrom].
    destruct (exec re false (String c r)) as [n|] eqn:E.
    + apply exec_sound in E as (m & rest & Hs & <- & HM & _).
      rewrite Hs, substring_prefix. destruct m as [|d m].
      * exfalso. now apply (proj1 Hu).
      * injection Hs as -> ->. cbn [String.length pred].
        rewrite matchAllFrom_skip.
        apply (Scan_found re "" (String d m) rest _).
        -- intros g1 g2 E Hne. destruct g1; [|discriminate].
           simpl in E. now subst g2.
        -- exact HM.
        -- apply IH. rewrite slength_app in Hk. lia.
    + apply LeftmostScan_skip; [|apply IH; lia].
      intros Hw. apply exec_StartsWord in Hw. congruence.
Qed.

(** ... and the only one. *)
Lemma LeftmostScan_matchAll (re : Regex.t) (s : string) ms :
  Unambiguous re -> LeftmostScan re s ms -> matchAll re s = ms.
Proof.
  intros Hu H. unfold matchAll.
  induction H as [s Hs|gap m rest ms Hg HM HS IH].
  - now apply matchAllFrom_none.
  - induction gap as [|c gap IHg].
    + cbn [append]. destruct m as [|d m]; [exfalso; now apply (proj1 Hu)|].
      pose proof (exec_selects re (String d m) rest Hu HM) as E.
      cbn [append] in *. cbn [matchAllFrom]. rewrite E.
      change (String d (m ++ rest)) with (String d m ++ rest)%string.
      rewrite substring_prefix. cbn [String.length pred].
      rewrite matchAllFrom_skip. now rewrite IH.
    + cbn [append matchAllFrom].
      destruct (exec re false (String c (gap ++ m ++ rest))) eqn:E.
      * exfalso. apply (Hg "" (String c gap) eq_refl); [discriminate|].
        apply exec_StartsWord. cbn [append]. congruence.
      * apply IHg. intros g1 g2 -> Hne.
        apply (Hg (String c g1) g2 eq_refl Hne).
Qed.

(** Every word in the text starts inside a reported match, or is one. *)
Lemma LeftmostScan_cover (re : Regex.t) (s : string) ms :
  Unambiguous re -> LeftmostScan re s ms ->
  forall pre m post,
    s = (pre ++ m ++ post)%string -> Matches re m ->
    exists pre' m' post',
      s = (pre' ++ m' ++ post')%string /\ In m' ms
      /\ String.length pre' <= String.length pre
      /\ String.length pre < String.length pre' + String.length m'
      /\ (String.length pre' = String.length pre -> m' = m).
Proof.
  intros Hu H. induction H as [s Hs|gap m0 rest ms Hg HM0 HS IH];
    intros pre m post E HM.
  - exfalso. apply (Hs pre (m ++ post)%string E). exists m, post. auto.
  - assert (Hne0 : m0 <> "") by (intros ->; now apply (proj1 Hu)).
    destruct (Nat.lt_ge_cases (String.length pre) (String.length gap))
      as [Hlt|Hge].
    + exfalso. symmetry in E.
      destruct (sapp_split _ _ _ _ E) as (g2 & -> & E2); [lia|].
      apply (Hg pre g2 eq_refl).
      * intros ->. rewrite slength_app in Hlt. simpl in Hlt. lia.
      * rewrite <- E2. exists m, post. auto.
    + destruct (sapp_split _ _ _ _ E Hge) as (e & -> & E2).
      destruct (Nat.lt_ge_cases (String.length e) (String.length m0))
        as [Hin|Hout].
      * exists gap, m0, rest. rewrite slength_app.
        repeat split; auto; try lia; [now left|].
        intros Hl. assert (e = "") as -> by (destruct e; simpl in *; [auto|lia]).
        simpl in E2. symmetry.
        exact (proj2 Hu m m0 post rest HM HM0 (eq_sym E2)).
      * destruct (sapp_split _ _ _ _ E2 Hout) as (e2 & -> & E3).
        destruct (IH e2 m post E3 HM) as (p' & m' & q' & -> & Hin & L1 & L2 & L3).
        exists (gap ++ m0 ++ p')%string, m', q'.
        rewrite !sapp_assoc, !slength_app. repeat split; auto; try lia.
        -- now right.
        -- intros Hl. apply L3. lia.
Qed.

End ScanFacts.


(* ================================================================== *)
(** * The plate matcher                                               *)
(* ================================================================== *)

Section MatcherFacts.
Import Regex Server.

(** The length guard of the matcher adds nothing to the pattern table. *)
Lemma isValid_structural (s : string) :
  isValidUKLicensePlate s = structuralTest (clean s).
Proof.
  unfold isValidUKLicensePlate, structuralTest, patterns.
  destruct (7 <=? String.length (clean s)); simpl; [|reflexivity].
  destruct (test currentFormat (clean s)); reflexivity.
Qed.

Lemma isValid_clean (s : string) :
  isValidUKLicensePlate (clean s) = isValidUKLicensePlate s.
Proof. now rewrite !isValid_structural, clean_idempotent. Qed.

Lemma isValid_of_current (s : string) :
  test currentFormat (clean s) = true -> isValidUKLicensePlate s = true.
Proof.
  intros H. rewrite isValid_structural. unfold structuralTest, patterns.
  simpl. now rewrite H.
Qed.

Lemma clean_cons_AZ (c : ascii) (r : string) :
  is_AZ c = true -> clean (String c r) = String c (clean r).
Proof.
  intros H. unfold clean. simpl. rewrite (AZ_not_space _ H). simpl.
  now rewrite (AZ_upper _ H).
Qed.

Lemma clean_cons_digit (c : ascii) (r : string) :
  is_digit c = true -> clean (String c r) = String c (clean r).
Proof.
  intros H. unfold clean. simpl. rewrite (digit_not_space _ H). simpl.
  now rewrite (digit_upper _ H).
Qed.

Lemma currentShape_inv (s : string) :
  currentShape s = true ->
  exists a b c d e f g,
    s = String a (String b (String c (String d
          (String e (String f (String g ""))))))
    /\ is_AZ a = true /\ is_AZ b = true
    /\ is_digit c = true /\ is_digit d = true
    /\ is_AZ e = true /\ is_AZ f = true /\ is_AZ g = true.
Proof.
  destruct s as [|a [|b [|c [|d [|e [|f [|g [|? ?]]]]]]]]; try discriminate.
  cbn [currentShape]. rewrite !andb_true_iff.
  intros ((((((Ha & Hb) & Hc) & Hd) & He) & Hf) & Hg).
  exists a, b, c, d, e, f, g. repeat split; assumption.
Qed.

Lemma currentShape_clean (s : string) :
  currentShape s = true -> clean s = s.
Proof.
  intros H.
  apply currentShape_inv in H
    as (a & b & c & d & e & f & g & -> & Ha & Hb & Hc & Hd & He & Hf & Hg).
  now rewrite 2!clean_cons_AZ, 2!clean_cons_digit, 3!clean_cons_AZ.
Qed.

Lemma currentShape_test (s : string) :
  currentShape s = true -> test currentFormat s = true.
Proof.
  intros H.
  apply currentShape_inv in H
    as (a & b & c & d & e & f & g & -> & Ha & Hb & Hc & Hd & He & Hf & Hg).
  apply test_correct.
  change (Matches currentFormat
            (String a (String b "") ++ String c (String d "")
               ++ String e (String f (String g "")) ++ "")%string).
  unfold currentFormat.
  repeat (apply Matches_cons;
          [unfold fits, exactly; cbn [cls lo hi allChars String.length within];
           rewrite ?Ha, ?Hb, ?Hc, ?Hd, ?He, ?Hf, ?Hg; repeat split; lia|]).
  apply Matches_nil.
Qed.

(** No pattern of the table matches a string whose first character is not
    an uppercase letter. *)
Lemma structuralTest_head (c : ascii) (r : string) :
  is_AZ c = false -> structuralTest (String c r) = false.
Proof.
  intros H. unfold structuralTest, patterns, test. simpl. now rewrite H.
Qed.

Lemma structuralTest_empty : structuralTest "" = false.
Proof. reflexivity. Qed.

Lemma isValid_short (s : string) :
  String.length s < 2 -> isValidUKLicensePlate s = false.
Proof.
  destruct s as [|c [|d s]]; simpl; intros H; try lia.
  - reflexivity.
  - clear H. destruct c as [[] [] [] [] [] [] [] []]; vm_compute; reflexivity.
Qed.

Lemma isValid_digits (s : string) :
  allChars is_digit s = true -> isValidUKLicensePlate s = false.
Proof.
  intros H. rewrite isValid_structural, (clean_digits _ H).
  destruct s as [|c r]; [reflexivity|].
  simpl in H. apply andb_prop in H as [Hc _].
  apply structuralTest_head. now apply digit_not_AZ.
Qed.

Lemma isValidPlate_shape (s : string) :
  currentShape s = true -> isValidUKLicensePlate s = true.
Proof.
  intros H. apply isValid_of_current.
  rewrite (currentShape_clean _ H). now apply currentShape_test.
Qed.

(** On ASCII text: every string made of exactly 2 uppercase letters, 2
    digits and 3 uppercase letters is accepted; every string shorter than
    2 characters and every string made of digits only is rejected. *)
Lemma isValid_ascii_model (s : string) :
  (currentShape s = true -> isValidUKLicensePlate s = true)
  /\ (String.length s < 2 -> isValidUKLicensePlate s = false)
  /\ (allChars is_digit s = true -> isValidUKLicensePlate s = false).
Proof.
  split; [|split].
  - apply isValidPlate_shape.
  - apply isValid_short.
  - apply isValid_digits.
Qed.

(** C6, as the claim states it, fails: the matcher accepts the lowercase
    string and the string with a space, which the structural test on the
    string as given rejects. *)
Lemma matcher_renormalizes_counterexample :
  isValidUKLicensePlate "ab12cde" <> structuralTest "ab12cde"
  /\ isValidUKLicensePlate "ab12cde" <> false
  /\ isValidUKLicensePlate "AB12 CDE" <> false.
Proof. repeat split; vm_compute; discriminate. Qed.

(** C6, amended.  The plate matcher normalises its input itself: its
    result is the structural test applied to the input with all
    whitespace removed and uppercased, so it cannot tell an input from its
    normalised form; the lowercase "ab12cde" and "AB12 CDE" with a space
    are both accepted. *)
Theorem matcher_normalizes_input (s : string) :
  isValidUKLicensePlate s = structuralTest (clean s)
  /\ isValidUKLicensePlate s = isValidUKLicensePlate (clean s)
  /\ isValidUKLicensePlate "ab12cde" = true
  /\ isValidUKLicensePlate "AB12 CDE" = true
  /\ structuralTest "ab12cde" = false
  /\ structuralTest "AB12 CDE" = false.
Proof.
  split; [apply isValid_structural|].
  split; [symmetry; apply isValid_clean|].
  repeat split; reflexivity.
Qed.

End MatcherFacts.


(* ================================================================== *)
(** * Deduplication: [[...new Set(plates)]]                            *)
(* ================================================================== *)

Section DedupeFacts.
Import Server.

Lemma setHas_In (seen : list string) (x : string) :
  setHas seen x = true <-> In x seen.
Proof.
  unfold setHas. rewrite existsb_exists. split.
  - intros (y & Hy & E). apply String.eqb_eq in E. now subst.
  - intros H. exists x. split; auto. apply String.eqb_refl.
Qed.

Lemma setHas_false (seen : list string) (x : string) :
  setHas seen x = false <-> ~ In x seen.
Proof.
  rewrite <- setHas_In. destruct (setHas seen x); split; congruence.
Qed.

Lemma setHas_app (a b : list string) (x : string) :
  setHas (a ++ b) x = setHas a x || setHas b x.
Proof. unfold setHas. apply existsb_app. Qed.

Lemma setHas_ext (a b : list string) :
  (forall x, In x a <-> In x b) -> forall x, setHas a x = setHas b x.
Proof.
  intros H x. destruct (setHas b x) eqn:E.
  - apply setHas_In, H, setHas_In, E.
  - apply setHas_false. intros Hin. apply setHas_false in E.
    apply E, H, Hin.
Qed.

Lemma setAddAll_app (xs ys seen : list string) :
  setAddAll seen (xs ++ ys) = setAddAll (setAddAll seen xs) ys.
Proof.
  revert seen. induction xs as [|x xs IH]; intros seen; simpl; auto.
Qed.

Lemma setAddAll_In (xs : list string) :
  forall seen y, In y (setAddAll seen xs) <-> In y seen \/ In y xs.
Proof.
  induction xs as [|x xs IH]; intros seen y; simpl; [tauto|].
  rewrite IH. destruct (setHas seen x) eqn:E.
  - apply setHas_In in E. split; [tauto|].
    intros [H|[<-|H]]; auto.
  - rewrite in_app_iff. simpl. tauto.
Qed.

Lemma setAddAll_NoDup (xs : list string) :
  forall seen, NoDup seen -> NoDup (setAddAll seen xs).
Proof.
  induction xs as [|x xs IH]; intros seen H; simpl; auto.
  apply IH. destruct (setHas seen x) eqn:E; auto.
  apply setHas_false in E.
  apply NoDup_app; auto.
  - repeat constructor. intros [].
  - intros y Hy [<-|[]]. contradiction.
Qed.

Lemma setAddAll_fresh (ys : list string) :
  forall seen, NoDup (seen ++ ys) -> setAddAll seen ys = seen ++ ys.
Proof.
  induction ys as [|y ys IH]; intros seen H; simpl.
  - now rewrite app_nil_r.
  - assert (Hy : setHas seen y = false).
    { apply setHas_false. intros Hin.
      apply NoDup_remove_2 in H. apply H, in_or_app. auto. }
    rewrite Hy, IH; rewrite <- app_assoc; auto.
Qed.

Lemma filter_filter_and {A} (p q : A -> bool) (l : list A) :
  filter p (filter q l) = filter (fun y => p y && q y) l.
Proof.
  induction l as [|a l IH]; simpl; auto.
  destruct (q a); simpl; rewrite ?andb_true_r, ?andb_false_r;
    [destruct (p a)|]; now rewrite IH.
Qed.

Lemma filter_notIn_app (a b l : list string) :
  filter (notIn a) (filter (notIn b) l) = filter (notIn (a ++ b)) l.
Proof.
  rewrite filter_filter_and. apply filter_ext. intros y.
  unfold notIn. rewrite setHas_app. now destruct (setHas a y), (setHas b y).
Qed.

(** The set, once filled from [xs], is what it held before followed by
    the values of [xs] it did not hold, each once, in order of arrival. *)
Lemma setAddAll_decompose (xs : list string) :
  forall seen,
    setAddAll seen xs = seen ++ filter (notIn seen) (dedupe xs).
Proof.
  unfold dedupe.
  induction xs as [|x xs IH]; intros seen.
  - simpl. now rewrite app_nil_r.
  - cbn [setAddAll]. change (setHas [] x) with false. cbn iota.
    change ([] ++ [x]) with [x].
    rewrite (IH [x]). cbn [app filter].
    change (notIn seen x) with (negb (setHas seen x)).
    destruct (setHas seen x) eqn:E; cbn [negb].
    + rewrite IH. f_equal. rewrite (filter_notIn_app seen [x]).
      apply filter_ext. intros y. unfold notIn. f_equal.
      apply setHas_ext. intros z. rewrite in_app_iff. simpl.
      apply setHas_In in E. split; [tauto|]. intros [H|[<-|[]]]; auto.
    + rewrite IH, <- app_assoc. cbn [app]. f_equal. f_equal.
      now rewrite (filter_notIn_app seen [x]).
Qed.

Lemma dedupe_In (xs : list string) (x : string) :
  In x (dedupe xs) <-> In x xs.
Proof. unfold dedupe. rewrite setAddAll_In. simpl. tauto. Qed.

Lemma dedupe_NoDup (xs : list string) : NoDup (dedupe xs).
Proof. apply setAddAll_NoDup. constructor. Qed.

Lemma dedupe_app (xs ys : list string) :
  dedupe (xs ++ ys) = dedupe xs ++ filter (notIn xs) (dedupe ys).
Proof.
  unfold dedupe at 1. rewrite setAddAll_app, setAddAll_decompose.
  fold (dedupe xs). f_equal. apply filter_ext. intros y. unfold notIn.
  f_equal. apply setHas_ext. intros z. apply dedupe_In.
Qed.

Lemma dedupe_cons (x : string) (xs : list string) :
  dedupe (x :: xs) = x :: filter (notIn [x]) (dedupe xs).
Proof. apply (dedupe_app [x] xs). Qed.

Lemma dedupe_idempotent (xs : list string) : dedupe (dedupe xs) = dedupe xs.
Proof.
  unfold dedupe at 1. apply (setAddAll_fresh (dedupe xs) []).
  apply dedupe_NoDup.
Qed.

Lemma dedupe_first_seen (pre post : list string) (x : string) :
  ~ In x pre ->
  dedupe (pre ++ x :: post)
  = dedupe pre ++ x :: filter (notIn (pre ++ [x])) (dedupe post).
Proof.
  intros H. rewrite dedupe_app, dedupe_cons. simpl.
  unfold notIn at 1. apply setHas_false in H. rewrite H. simpl.
  now rewrite filter_notIn_app.
Qed.

Lemma NoDup_count_one (l : list string) (x : string) :
  NoDup l -> In x l -> count_occ string_dec l x = 1.
Proof.
  intros Hnd Hin.
  pose proof (proj1 (NoDup_count_occ string_dec l) Hnd x) as Hle.
  pose proof (proj1 (count_occ_In string_dec l x) Hin). lia.
Qed.

End DedupeFacts.


(* ================================================================== *)
(** * Candidate extraction                                            *)
(* ================================================================== *)

Section ExtractionFacts.
Import Regex Server.

(** The words of the scan pattern, spelled out. *)
Lemma plateScan_words (m : string) :
  Matches plateScan m ->
  exists letters digits spaces suffix,
    m = (letters ++ digits ++ spaces ++ suffix)%string
    /\ currentShape (letters ++ digits ++ suffix) = true
    /\ allChars is_space spaces = true.
Proof.
  intros H. unfold plateScan in H.
  inversion H as [|a1 re1 r1 t1 F1 H1]; subst; clear H.
  inversion H1 as [|a2 re2 r2 t2 F2 H2]; subst; clear H1.
  inversion H2 as [|a3 re3 r3 t3 F3 H3]; subst; clear H2.
  inversion H3 as [|a4 re4 r4 t4 F4 H4]; subst; clear H3.
  inversion H4; subst; clear H4.
  destruct F1 as (A1 & L1 & U1), F2 as (A2 & L2 & U2),
           F3 as (A3 & _ & _), F4 as (A4 & L4 & U4).
  cbn [exactly star cls lo hi within] in *.
  exists r1, r2, r3, r4. rewrite sapp_nil_r. repeat split; auto.
  destruct r1 as [|a [|b [|? ?]]]; simpl in L1, U1; try lia.
  destruct r2 as [|c [|d [|? ?]]]; simpl in L2, U2; try lia.
  destruct r4 as [|e [|f [|g [|? ?]]]]; simpl in L4, U4; try lia.
  cbn [allChars] in A1, A2, A4. cbn [append currentShape].
  rewrite !andb_true_r in *.
  apply andb_prop in A1 as [-> ->]. apply andb_prop in A2 as [-> ->].
  apply andb_prop in A4 as [-> A4]. apply andb_prop in A4 as [-> ->].
  reflexivity.
Qed.

Lemma plateScan_clean (m : string) :
  Matches plateScan m -> currentShape (clean m) = true.
Proof.
  intros H.
  apply plateScan_words in H as (l & d & w & x & -> & Hshape & Hw).
  rewrite !clean_app, (clean_spaces _ Hw). cbn [append].
  rewrite <- !clean_app. now rewrite (currentShape_clean _ Hshape).
Qed.

(** Method 1 pushes strings of the current format only. *)
Lemma method1_shape (ft : option string) (p : string) :
  In p (method1 ft) -> currentShape p = true.
Proof.
  unfold method1. destruct (truthyText ft) as [t|]; [|intros []].
  rewrite in_map_iff. intros (m & <- & Hm).
  apply matchAllFrom_sound in Hm as (pre & post & _ & HM).
  now apply plateScan_clean.
Qed.

(** Method 2 pushes the normalised text of exactly the annotations, the
    first one included, whose trimmed text is non-empty and accepted. *)
Lemma method2_In (annotations : list TextAnnotation) (p : string) :
  In p (method2 annotations) <->
  exists a t, In a annotations /\ truthyText (trimmed a) = Some t
              /\ isValidUKLicensePlate t = true /\ p = clean t.
Proof.
  induction annotations as [|a rest IH]; simpl.
  - split; [intros []|intros (? & ? & [] & _)].
  - destruct (truthyText (trimmed a)) as [t|] eqn:T.
    + destruct (isValidUKLicensePlate t) eqn:V; simpl; rewrite IH; split.
      * intros [<-|(b & u & Hb & Hu)]; [exists a, t; auto|].
        exists b, u. tauto.
      * intros (b & u & [<-|Hb] & Hu & Hv & ->).
        -- left. congruence.
        -- right. exists b, u. auto.
      * intros (b & u & Hb & Hu). exists b, u. tauto.
      * intros (b & u & [<-|Hb] & Hu & Hv & ->); [congruence|].
        exists b, u. auto.
    + rewrite IH. split.
      * intros (b & u & Hb & Hu). exists b, u. tauto.
      * intros (b & u & [<-|Hb] & Hu & Hv & ->); [congruence|].
        exists b, u. auto.
Qed.

Lemma method3_accepted (segments : list string) (p : string) :
  In p (method3 segments) ->
  exists t, isValidUKLicensePlate t = true /\ p = clean t.
Proof.
  induction segments as [|a rest IH]; [intros []|].
  cbn [method3]. destruct rest as [|b rest']; [intros []|].
  cbv zeta. destruct (isValidUKLicensePlate (a ++ " " ++ b)) eqn:V; auto.
  intros [<-|H]; eauto.
Qed.

Lemma method4_accepted (segments : list string) (p : string) :
  In p (method4 segments) ->
  exists t, isValidUKLicensePlate t = true /\ p = clean t.
Proof.
  induction segments as [|a rest IH]; [intros []|].
  cbn [method4]. destruct rest as [|b [|c rest']]; try (intros []; fail).
  cbv zeta. destruct (isValidUKLicensePlate (a ++ b ++ " " ++ c)) eqn:V; auto.
  intros [<-|H]; eauto.
Qed.

(** Whatever is pushed is normalised and accepted by the matcher. *)
Lemma pushedPlates_accepted ft annotations p :
  In p (pushedPlates ft annotations) ->
  clean p = p /\ isValidUKLicensePlate p = true.
Proof.
  assert (Hacc : forall t, isValidUKLicensePlate t = true ->
                           clean (clean t) = clean t
                           /\ isValidUKLicensePlate (clean t) = true).
  { intros t Ht. now rewrite clean_idempotent, isValid_clean. }
  unfold pushedPlates. rewrite !in_app_iff.
  intros [H|[H|[H|H]]].
  - apply method1_shape in H. split; [now apply currentShape_clean|].
    now apply isValidPlate_shape.
  - apply method2_In in H as (a & t & _ & _ & Ht & ->). auto.
  - apply method3_accepted in H as (t & Ht & ->). auto.
  - apply method4_accepted in H as (t & Ht & ->). auto.
Qed.

Lemma licensePlates_normalised annotations p :
  In p (detectedPlates annotations) -> clean p = p.
Proof.
  unfold detectedPlates, extractLicensePlates. intros H.
  apply (proj1 (dedupe_In _ _)) in H.
  now apply pushedPlates_accepted in H.
Qed.

End ExtractionFacts.


(* ================================================================== *)
(** * The claims about extraction and deduplication                   *)
(* ================================================================== *)

Section ExtractionClaims.
Import Regex Server.

Lemma partialOnly_accepted (t : string) :
  partialOnly (clean t) = true -> isValidUKLicensePlate t = true.
Proof.
  unfold partialOnly. rewrite isValid_structural.
  unfold structuralTest, patterns. cbn [existsb].
  intros H. apply andb_prop in H as [H _].
  apply orb_prop in H as [-> | ->]; now rewrite ?orb_true_r.
Qed.

Lemma scan_word_nonempty (m : string) : Matches plateScan m -> m <> "".
Proof.
  intros H E. subst m.
  apply plateScan_words in H as (l & d & w & x & E & Hshape & _).
  destruct l; [|discriminate]. destruct d; [|discriminate].
  destruct w; [|discriminate]. destruct x; discriminate.
Qed.

(** C1, as the claim states it, fails: with the annotations "AB12 CDE",
    "AB12", "CDE" the bare letters "CDE", a partial shape and no complete
    format, are in the final list. *)
Lemma partial_fragment_surfaced_counterexample :
  ~ (forall p, partialOnly p = true ->
               ~ In p (detectedPlates (map annot ["AB12 CDE"; "AB12"; "CDE"]))).
Proof.
  intros H. apply (H "CDE"); [reflexivity|]. vm_compute. auto.
Qed.

(** C1, amended.  Every entry of the final deduplicated list is a
    normalised string that the matcher accepts, and the matcher accepts the
    partial-fragment shapes: each annotation whose trimmed, non-empty text
    is accepted by the matcher -- a text that normalises to a partial
    shape and to no complete format included -- has its normalised text in
    the final list. *)
Theorem licensePlates_accepted_by_matcher (annotations : list TextAnnotation) :
  (forall p, In p (detectedPlates annotations) ->
             clean p = p /\ isValidUKLicensePlate p = true)
  /\ (forall a t, In a annotations ->
                  truthyText (trimmed a) = Some t ->
                  isValidUKLicensePlate t = true ->
                  In (clean t) (detectedPlates annotations))
  /\ (forall a t, In a annotations ->
                  truthyText (trimmed a) = Some t ->
                  partialOnly (clean t) = true ->
                  In (clean t) (detectedPlates annotations)).
Proof.
  assert (Hsurf : forall a t, In a annotations ->
                  truthyText (trimmed a) = Some t ->
                  isValidUKLicensePlate t = true ->
                  In (clean t) (detectedPlates annotations)).
  { intros a t Ha Ht Hv. unfold detectedPlates, extractLicensePlates.
    apply dedupe_In. unfold pushedPlates. rewrite !in_app_iff.
    right; left. apply method2_In. exists a, t. auto. }
  split; [|split]; auto.
  - intros p Hp. unfold detectedPlates, extractLicensePlates in Hp.
    apply (proj1 (dedupe_In _ _)) in Hp.
    now apply pushedPlates_accepted in Hp.
  - intros a t Ha Ht Hp. apply (Hsurf a t); auto.
    now apply partialOnly_accepted.
Qed.

Lemma licensePlates_accepted_by_matcher_witness :
  In "CDE" (detectedPlates (map annot ["AB12 CDE"; "AB12"; "CDE"])).
Proof.
  apply (proj2 (proj2 (licensePlates_accepted_by_matcher
                         (map annot ["AB12 CDE"; "AB12"; "CDE"])))
           (annot "CDE") "CDE").
  - simpl. auto.
  - reflexivity.
  - reflexivity.
Defined.

(** C3.  For the annotations "YF65CVK plate photo", "YF", "65", "CVK" the
    full-text scan pushes "YF65CVK", the three-fragment combination
    "YF" + "65" + " " + "CVK" pushes it again, and the deduplicated list
    holds "YF65CVK" exactly once (next to the fragments "CVK" and "YF65"
    pushed by methods 2 and 3). *)
Theorem yf65cvk_found_twice_listed_once :
  let annotations := map annot ["YF65CVK plate photo"; "YF"; "65"; "CVK"] in
  method1 (fullTextOf annotations) = ["YF65CVK"]
  /\ textSegments annotations = ["YF"; "65"; "CVK"]
  /\ isValidUKLicensePlate ("YF" ++ "65" ++ " " ++ "CVK") = true
  /\ method4 (textSegments annotations) = ["YF65CVK"]
  /\ count_occ string_dec
       (pushedPlates (fullTextOf annotations) annotations) "YF65CVK" = 2
  /\ count_occ string_dec (detectedPlates annotations) "YF65CVK" = 1
  /\ detectedPlates annotations = ["YF65CVK"; "CVK"; "YF65"].
Proof. vm_compute. repeat split. Qed.

(** C4, as the claim states it, fails: with the single annotation
    "AB12CDE" method 2 pushes a plate although there is no annotation
    after the first. *)
Lemma first_annotation_tested_counterexample :
  ~ (forall p, In p (method2 [annot "AB12CDE"]) ->
       exists a t, In a (tl [annot "AB12CDE"])
                   /\ truthyText (trimmed a) = Some t
                   /\ isValidUKLicensePlate t = true /\ p = clean t).
Proof.
  intros H. destruct (H "AB12CDE") as (a & t & [] & _).
  vm_compute. auto.
Qed.

(** C4, amended.  The per-fragment strategy tests every annotation, the
    first (full-image-text) one included: its candidates are exactly the
    normalised texts of the annotations whose trimmed text is non-empty
    and satisfies the matcher, and when the first annotation's text
    satisfies the matcher it is the first candidate of the strategy. *)
Theorem per_fragment_tests_every_annotation
        (annotations : list TextAnnotation) :
  (forall p, In p (method2 annotations) <->
     exists a t, In a annotations /\ truthyText (trimmed a) = Some t
                 /\ isValidUKLicensePlate t = true /\ p = clean t)
  /\ (forall first rest t,
        annotations = first :: rest ->
        truthyText (trimmed first) = Some t ->
        isValidUKLicensePlate t = true ->
        method2 annotations = clean t :: method2 rest).
Proof.
  split; [intros p; apply method2_In|].
  intros first rest t -> Ht Hv. simpl. now rewrite Ht, Hv.
Qed.

Lemma per_fragment_tests_every_annotation_witness :
  method2 (map annot ["A123 BCD"; "A123"; "BCD"])
  = clean "A123 BCD" :: method2 (map annot ["A123"; "BCD"]).
Proof.
  apply (proj2 (per_fragment_tests_every_annotation
                  (map annot ["A123 BCD"; "A123"; "BCD"]))
           (annot "A123 BCD") (map annot ["A123"; "BCD"]) "A123 BCD").
  - reflexivity.
  - reflexivity.
  - reflexivity.
Defined.

(** C5, as the claim states it, fails: for the first annotation
    "AB 12 CDE" the scan does not yield "AB12CDE". *)
Lemma scan_space_after_letters_counterexample :
  ~ In "AB12CDE" (method1 (fullTextOf [annot "AB 12 CDE"])).
Proof. vm_compute. intros []. Qed.

Lemma plateScan_runs (m : string) :
  Matches plateScan m ->
  exists a b c d w e f g,
    m = (String a (String b (String c (String d w)))
           ++ String e (String f (String g "")))%string
    /\ is_AZ a = true /\ is_AZ b = true
    /\ is_digit c = true /\ is_digit d = true
    /\ allChars is_space w = true
    /\ is_AZ e = true /\ is_AZ f = true /\ is_AZ g = true.
Proof.
  intros H. unfold plateScan in H.
  inversion H as [|a1 re1 r1 t1 (A1 & L1 & U1) H1]; subst; clear H.
  inversion H1 as [|a2 re2 r2 t2 (A2 & L2 & U2) H2]; subst; clear H1.
  inversion H2 as [|a3 re3 r3 t3 (A3 & _ & _) H3]; subst; clear H2.
  inversion H3 as [|a4 re4 r4 t4 (A4 & L4 & U4) H4]; subst; clear H3.
  inversion H4; subst; clear H4.
  cbn [exactly star cls lo hi within] in *.
  destruct r1 as [|a [|b [|? ?]]]; simpl in L1, U1; try lia.
  destruct r2 as [|c [|d [|? ?]]]; simpl in L2, U2; try lia.
  destruct r4 as [|e [|f [|g [|? ?]]]]; simpl in L4, U4; try lia.
  cbn [allChars] in A1, A2, A4. rewrite !andb_true_r in *.
  apply andb_prop in A1 as [Ha Hb]. apply andb_prop in A2 as [Hc Hd].
  apply andb_prop in A4 as [He A4]. apply andb_prop in A4 as [Hf Hg].
  exists a, b, c, d, r3, e, f, g. cbn [append].
  repeat split; auto.
Qed.

(** A run of whitespace that ends before a letter is determined by the
    text it starts. *)
Lemma space_run_unique (w w' : string) (e e' : ascii) (t t' : string) :
  allChars is_space w = true -> allChars is_space w' = true ->
  is_space e = false -> is_space e' = false ->
  (w ++ String e t)%string = (w' ++ String e' t')%string ->
  w = w' /\ e = e' /\ t = t'.
Proof.
  revert w'. induction w as [|x w IH]; intros w' Hw Hw' He He' E.
  - destruct w' as [|y w'].
    + simpl in E. injection E as -> ->. auto.
    + simpl in E, Hw'. injection E as -> _.
      apply andb_prop in Hw' as [Hy _]. congruence.
  - simpl in Hw. apply andb_prop in Hw as [Hx Hw].
    destruct w' as [|y w'].
    + simpl in E. injection E as -> _. congruence.
    + simpl in E, Hw'. injection E as -> E.
      apply andb_prop in Hw' as [_ Hw'].
      destruct (IH w' Hw Hw' He He' E) as (-> & -> & ->). auto.
Qed.

(** At any place of a text at most one word of the scan pattern starts. *)
Lemma plateScan_unambiguous : Unambiguous plateScan.
Proof.
  split.
  - intros H. now apply (scan_word_nonempty "").
  - intros m m' post post' HM HM' E.
    apply plateScan_runs in HM
      as (a & b & c & d & w & e & f & g & -> & _ & _ & _ & _ & Hw & He & _).
    apply plateScan_runs in HM'
      as (a' & b' & c' & d' & w' & e' & f' & g' & -> & _ & _ & _ & _
          & Hw' & He' & _).
    cbn [append] in E. injection E as -> -> -> -> E.
    rewrite !sapp_assoc in E. cbn [append] in E.
    destruct (space_run_unique _ _ _ _ _ _ Hw Hw'
                (AZ_not_space _ He) (AZ_not_space _ He') E) as (-> & -> & E').
    now injection E' as -> -> _.
Qed.

(** C5, amended.  The scan runs over the first annotation's trimmed text
    with newlines turned into spaces and whitespace runs collapsed.  Its
    shape is 2 uppercase letters, 2 digits, optional whitespace, 3
    uppercase letters: no space is allowed between the letter pair and the
    digit pair.  It finds every substring of that shape that does not
    overlap a match found before it: the candidates are, with their
    whitespace removed, exactly the substrings obtained by taking the
    leftmost one, then the leftmost one after its end, and so on, so that
    every substring of the shape is a reported match or starts inside
    one.  "AB12 CDE" yields "AB12CDE", "AB 12 CDE" yields nothing, and of
    the two overlapping substrings of "AB12CDE34FGH" only the first is
    reported. *)
Theorem full_text_scan_reports_compact_shape (ft : string) :
  method1 (Some ft) = map clean (matchAll plateScan (cleanFullTextOf ft))
  /\ (forall ms,
        LeftmostScan plateScan (cleanFullTextOf ft) ms <->
        matchAll plateScan (cleanFullTextOf ft) = ms)
  /\ (forall pre m post,
        cleanFullTextOf ft = (pre ++ m ++ post)%string ->
        Matches plateScan m ->
        exists pre' m' post',
          cleanFullTextOf ft = (pre' ++ m' ++ post')%string
          /\ In m' (matchAll plateScan (cleanFullTextOf ft))
          /\ In (clean m') (method1 (Some ft))
          /\ String.length pre' <= String.length pre
          /\ String.length pre < String.length pre' + String.length m'
          /\ (String.length pre' = String.length pre -> m' = m))
  /\ (forall p, In p (method1 (Some ft)) ->
        exists pre m post,
          cleanFullTextOf ft = (pre ++ m ++ post)%string
          /\ Matches plateScan m /\ p = clean m /\ currentShape p = true)
  /\ (forall pre m post,
        cleanFullTextOf ft = (pre ++ m ++ post)%string ->
        Matches plateScan m -> method1 (Some ft) <> [])
  /\ method1 (Some "AB12 CDE") = ["AB12CDE"]
  /\ method1 (Some "AB 12 CDE") = []
  /\ method1 (Some "AB12CDE34FGH") = ["AB12CDE"].
Proof.
  assert (H1 : method1 (Some ft)
               = map clean (matchAll plateScan (cleanFullTextOf ft))).
  { destruct ft; reflexivity. }
  assert (Hcover : forall pre m post,
             cleanFullTextOf ft = (pre ++ m ++ post)%string ->
             Matches plateScan m ->
             exists pre' m' post',
               cleanFullTextOf ft = (pre' ++ m' ++ post')%string
               /\ In m' (matchAll plateScan (cleanFullTextOf ft))
               /\ In (clean m') (method1 (Some ft))
               /\ String.length pre' <= String.length pre
               /\ String.length pre < String.length pre' + String.length m'
               /\ (String.length pre' = String.length pre -> m' = m)).
  { intros pre m post E HM.
    destruct (LeftmostScan_cover plateScan _ _ plateScan_unambiguous
                (matchAll_LeftmostScan plateScan (cleanFullTextOf ft)
                   plateScan_unambiguous) pre m post E HM)
      as (pre' & m' & post' & E' & Hin & L).
    exists pre', m', post'. rewrite H1. repeat split; try tauto.
    now apply in_map. }
  split; [exact H1|]. split; [|split; [exact Hcover|]].
  - intros ms. split.
    + now apply LeftmostScan_matchAll, plateScan_unambiguous.
    + intros <-. apply matchAll_LeftmostScan, plateScan_unambiguous.
  - split; [|split; [|repeat split; reflexivity]].
    + intros p Hp. pose proof (method1_shape _ _ Hp) as Hshape.
      rewrite H1 in Hp. apply in_map_iff in Hp as (m & <- & Hm).
      apply matchAllFrom_sound in Hm as (pre & post & E & HM).
      exists pre, m, post. auto.
    + intros pre m post E HM Hnil.
      destruct (Hcover pre m post E HM) as (? & m' & ? & _ & _ & Hin & _).
      rewrite Hnil in Hin. destruct Hin.
Qed.

Lemma full_text_scan_reports_compact_shape_witness :
  exists pre' m' post',
    cleanFullTextOf "XY99ZZZ, then AB12 CDE"
    = (pre' ++ m' ++ post')%string
    /\ In m' (matchAll plateScan (cleanFullTextOf "XY99ZZZ, then AB12 CDE"))
    /\ In (clean m') (method1 (Some "XY99ZZZ, then AB12 CDE"))
    /\ String.length pre' <= String.length "XY99ZZZ, then "
    /\ String.length "XY99ZZZ, then "
       < String.length pre' + String.length m'
    /\ (String.length pre' = String.length "XY99ZZZ, then " ->
        m' = "AB12 CDE").
Proof.
  apply (proj1 (proj2 (proj2 (full_text_scan_reports_compact_shape
                                "XY99ZZZ, then AB12 CDE")))
           "XY99ZZZ, then " "AB12 CDE" "").
  - reflexivity.
  - change (Matches plateScan ("AB" ++ "12" ++ " " ++ "CDE" ++ "")).
    repeat (apply Matches_cons; [repeat split; simpl; lia|]).
    apply Matches_nil.
Defined.

(** C8.  [dedupe] keeps each distinct value exactly once, in the order in
    which the values are first seen: a value stands after the distinct
    values that precede its first occurrence and before those first seen
    later; deduplicating twice changes nothing.  [extractLicensePlates]
    deduplicates the candidates of the four strategies in the order
    full-text, single-fragment, pair, triple, and all of them are
    normalised. *)
Theorem dedupe_first_seen_set_reduction (xs : list string) :
  NoDup (dedupe xs)
  /\ (forall x, In x (dedupe xs) <-> In x xs)
  /\ (forall x, In x xs -> count_occ string_dec (dedupe xs) x = 1)
  /\ (forall pre x post,
        xs = pre ++ x :: post -> ~ In x pre ->
        dedupe xs
        = dedupe pre ++ x :: filter (notIn (pre ++ [x])) (dedupe post))
  /\ dedupe (dedupe xs) = dedupe xs
  /\ (forall ft annotations,
        let m1 := method1 ft in
        let m2 := method2 annotations in
        let m3 := method3 (textSegments annotations) in
        let m4 := method4 (textSegments annotations) in
        extractLicensePlates ft annotations
        = dedupe m1
            ++ filter (notIn m1) (dedupe m2)
            ++ filter (notIn (m1 ++ m2)) (dedupe m3)
            ++ filter (notIn (m1 ++ m2 ++ m3)) (dedupe m4))
  /\ (forall ft annotations p,
        In p (pushedPlates ft annotations) -> clean p = p).
Proof.
  split; [apply dedupe_NoDup|].
  split; [intros x; apply dedupe_In|].
  split.
  { intros x H. apply NoDup_count_one; [apply dedupe_NoDup|].
    now apply dedupe_In. }
  split; [intros pre x post -> H; now apply dedupe_first_seen|].
  split; [apply dedupe_idempotent|].
  split.
  - intros ft annotations m1 m2 m3 m4.
    unfold extractLicensePlates, pushedPlates. fold m1 m2 m3 m4.
    rewrite (dedupe_app m1), (dedupe_app m2), (dedupe_app m3).
    rewrite !filter_app, !filter_notIn_app.
    now rewrite <- !app_assoc.
  - intros ft annotations p Hp. now apply pushedPlates_accepted in Hp.
Qed.

Lemma dedupe_first_seen_set_reduction_witness :
  count_occ string_dec (dedupe ["YF65CVK"; "CVK"; "YF65"; "YF65CVK"]) "YF65CVK"
  = 1
  /\ dedupe (["YF65CVK"; "CVK"] ++ "YF65" :: ["YF65CVK"])
     = dedupe ["YF65CVK"; "CVK"]
         ++ "YF65" :: filter (notIn (["YF65CVK"; "CVK"] ++ ["YF65"]))
                             (dedupe ["YF65CVK"]).
Proof.
  split.
  - apply (proj1 (proj2 (proj2 (dedupe_first_seen_set_reduction
                                  ["YF65CVK"; "CVK"; "YF65"; "YF65CVK"])))).
    simpl. auto.
  - apply (proj1 (proj2 (proj2 (proj2 (dedupe_first_seen_set_reduction
             (["YF65CVK"; "CVK"] ++ "YF65" :: ["YF65CVK"])))))
             ["YF65CVK"; "CVK"] "YF65" ["YF65CVK"]).
    + reflexivity.
    + simpl. intros [H|[H|[]]]; discriminate.
Defined.

End ExtractionClaims.


(* ================================================================== *)
(** * The registry lookup and the [/upload] handler                   *)
(* ================================================================== *)

Section LookupClaims.
Import Server.

Lemma run_lookupVehicle registry key :
  run registry (lookupVehicle key)
  = (match registry (registryUrl (clean key)) with
     | Resolved data => decodeVehicle data
     | _ => None
     end,
     [registryUrl (clean key)]).
Proof.
  unfold lookupVehicle, clean. simpl.
  destruct (registry _) as [data|status data|msg|]; try reflexivity.
  now destruct (status =? 404).
Qed.

Lemma run_bind {A B} registry (m : Req A) (f : A -> Req B) :
  run registry (bind m f)
  = (fst (run registry (f (fst (run registry m)))),
     snd (run registry m) ++ snd (run registry (f (fst (run registry m))))).
Proof.
  induction m as [a|url k IH]; simpl.
  - now destruct (run registry (f a)).
  - rewrite IH. destruct (run registry (k (registry url))) as [a urls].
    reflexivity.
Qed.

Lemma detectedPlates_nil : detectedPlates [] = [].
Proof. reflexivity. Qed.

(** What the handler does once plates were detected. *)
Lemma run_upload_plates registry annotations first rest :
  detectedPlates annotations = first :: rest ->
  run registry (upload (Some annotations))
  = (let vehicle := fst (run registry (lookupVehicle first)) in
     {| hasText := true; text := annotations;
        fullText := Some (join ", " (first :: rest));
        allText := Some (allTextOf annotations);
        licensePlates := Some (first :: rest);
        vehicleData := Some vehicle;
        message :=
          match vehicle with
          | Some _ =>
              ("License plate detected: " ++ first ++ " - Vehicle found!")%string
          | None =>
              ("License plate(s) detected: " ++ join ", " (first :: rest)
                 ++ " - Vehicle not found in database")%string
          end |},
     [registryUrl (clean first)]).
Proof.
  intros H. destruct annotations as [|a l]; [discriminate|].
  unfold upload. rewrite H, run_bind, run_lookupVehicle. reflexivity.
Qed.





(** C9.  When extraction yields a non-empty deduplicated list, the
    handler calls the registry exactly once, for the first candidate; the
    key in the URL is that candidate with all whitespace removed and
    uppercased (which leaves it as it is, the candidate being normalised
    already); the whole list, the remaining candidates included, is the
    response's [licensePlates]. *)
Theorem upload_looks_up_first_plate_once
        (registry : string -> AxiosOutcome)
        (annotations : list TextAnnotation) (first : string)
        (rest : list string) :
  detectedPlates annotations = first :: rest ->
  snd (run registry (upload (Some annotations)))
  = [registryUrl (toUpperCase (stripSpaces first))]
  /\ snd (run registry (upload (Some annotations)))
     = snd (run registry (lookupVehicle first))
  /\ licensePlates (fst (run registry (upload (Some annotations))))
     = Some (first :: rest)
  /\ Regex.allChars (fun c => negb (is_space c) && negb (is_az c))
                    (toUpperCase (stripSpaces first)) = true
  /\ toUpperCase (stripSpaces first) = first.
Proof.
  intros D. rewrite (run_upload_plates _ _ _ _ D), run_lookupVehicle.
  cbv zeta. cbn [fst snd licensePlates]. fold (clean first).
  repeat split; auto.
  - apply clean_normal.
  - apply (licensePlates_normalised annotations). rewrite D. now left.
Qed.

Lemma upload_looks_up_first_plate_once_witness :
  snd (run (fun _ => Rejected 404 JNull)
           (upload (Some (map annot ["AB12 CDE"; "AB12"; "CDE"]))))
  = ["https://api.vehicledatabases.com/uk-registration-decode/AB12CDE"].
Proof.
  apply (proj1 (upload_looks_up_first_plate_once
                  (fun _ => Rejected 404 JNull)
                  (map annot ["AB12 CDE"; "AB12"; "CDE"])
                  "AB12CDE" ["AB12"; "CDE"] eq_refl)).
Defined.

End LookupClaims.


(* ================================================================== *)
(** * The on-device collection                                        *)
(* ================================================================== *)

Section CollectionClaims.
Import App.

Lemma isDuplicate_In (key : string) (collection : list CollectedVehicle) :
  existsb (fun item => String.eqb (fullModel item) key) collection = true
  <-> In key (map fullModel collection).
Proof.
  rewrite existsb_exists, in_map_iff. split.
  - intros (item & Hin & E). apply String.eqb_eq in E. eauto.
  - intros (item & E & Hin). exists item. split; auto.
    now apply String.eqb_eq.
Qed.

Lemma NoDup_snoc (l : list string) (x : string) :
  NoDup l -> ~ In x l -> NoDup (l ++ [x]).
Proof.
  induction l as [|y l IH]; simpl; intros Hnd Hx.
  - repeat constructor. intros [].
  - inversion Hnd as [|? ? Hy Hl]; subst. constructor.
    + rewrite in_app_iff. simpl. intros [H|[H|[]]]; [auto|].
      apply Hx. now left.
    + apply IH; auto.
Qed.

Lemma saveToCollection_unique dev vehicle uri storage :
  uniqueKeys storage ->
  uniqueKeys (stored (saveToCollection dev vehicle uri storage)).
Proof.
  intros H. unfold saveToCollection.
  destruct (getItemRejects dev); [exact H|].
  destruct (existsb _ _) eqn:E; [exact H|].
  destruct (setItemRejects dev); [exact H|].
  unfold uniqueKeys in *. cbn [stored records].
  fold (records storage) in *. rewrite map_app. cbn [map fullModel].
  apply NoDup_snoc; auto.
  intros Hin. apply isDuplicate_In in Hin. congruence.
Qed.

Lemma step_unique storage op :
  uniqueKeys storage -> uniqueKeys (step storage op).
Proof.
  destruct op as [dev vehicle uri|rejects]; simpl.
  - apply saveToCollection_unique.
  - unfold clearCollection. destruct rejects; auto.
    intros _. constructor.
Qed.

Lemma ops_unique ops :
  forall storage, uniqueKeys storage -> uniqueKeys (fold_left step ops storage).
Proof.
  induction ops as [|op ops IH]; intros storage H; simpl; auto.
  apply IH. now apply step_unique.
Qed.

(** C10.  Saving preserves the uniqueness of [fullModel] among the stored
    records.  On a collection with pairwise distinct keys, a save whose
    key, the lowercase of make + " " + model, is already stored leaves
    the collection unchanged; a save with a fresh key whose storage read
    and write succeed appends exactly one record carrying that key; the
    keys are pairwise distinct afterwards in every case, and remain so
    whatever sequence of saves and clears the app performs. *)
Theorem saveToCollection_preserves_unique_fullModel
        (dev : Device) (vehicle : VehicleData) (uri : string)
        (storage : Storage) :
  uniqueKeys storage ->
  let saved := saveToCollection dev vehicle uri storage in
  let key := toLowerCase (make vehicle ++ " " ++ model vehicle) in
  uniqueKeys (stored saved)
  /\ (In key (map fullModel (records storage)) ->
      stored saved = storage /\ returned saved = false)
  /\ (~ In key (map fullModel (records storage)) ->
      getItemRejects dev = false -> setItemRejects dev = false ->
      exists record,
        records (stored saved) = records storage ++ [record]
        /\ fullModel record = key
        /\ item_make record = make vehicle
        /\ item_model record = model vehicle
        /\ returned saved = true)
  /\ (forall ops, uniqueKeys (fold_left step ops storage)).
Proof.
  intros H saved key. split; [|split; [|split]].
  - now apply saveToCollection_unique.
  - intros Hin. subst saved. unfold saveToCollection.
    destruct (getItemRejects dev); [auto|].
    fold (records storage). fold (fullModelOf vehicle).
    apply isDuplicate_In in Hin. unfold fullModelOf.
    fold key. rewrite Hin. auto.
  - intros Hfresh Hget Hset. subst saved. unfold saveToCollection.
    rewrite Hget, Hset. fold (records storage). unfold fullModelOf.
    fold key.
    destruct (existsb _ _) eqn:E.
    + apply isDuplicate_In in E. contradiction.
    + eexists. cbn [stored records returned]. split; [reflexivity|].
      repeat split.
  - intros ops. now apply ops_unique.
Qed.

Lemma saveToCollection_preserves_unique_fullModel_witness :
  uniqueKeys
    (stored (saveToCollection
               {| getItemRejects := false; setItemRejects := false;
                  dateNow := "1700000000000";
                  dateIso := "2023-11-14T22:13:20.000Z" |}
               {| make := "Audi"; model := "Q3 TDI S Line" |}
               "file:///photo.jpg"
               (Some [{| id := "1"; item_make := "Audi";
                         item_model := "Q3 TDI S Line";
                         imageUri := "file:///old.jpg";
                         dateSpotted := "2023-01-01T00:00:00.000Z";
                         fullModel := "audi q3 tdi s line" |}]))).
Proof.
  apply (saveToCollection_preserves_unique_fullModel _ _ _ _).
  unfold uniqueKeys. simpl. repeat constructor. intros [].
Defined.

End CollectionClaims.


(* ================================================================== *)
(** * Further properties of the matcher and of the extraction         *)
(* ================================================================== *)

Section ShapeFacts.
Import Regex Server.

Lemma allChars_app (p : ascii -> bool) (a b : string) :
  allChars p (a ++ b) = allChars p a && allChars p b.
Proof.
  induction a as [|c a IH]; simpl; [reflexivity|].
  now rewrite IH, andb_assoc.
Qed.

Lemma allChars_impl (p q : ascii -> bool) (s : string) :
  (forall c, p c = true -> q c = true) ->
  allChars p s = true -> allChars q s = true.
Proof.
  intros Hpq. induction s as [|c s IH]; simpl; [reflexivity|].
  intros H. apply andb_prop in H as [Hc Hs]. now rewrite (Hpq _ Hc), IH.
Qed.

(** The characters of a word come from the classes of its pattern. *)
Lemma Matches_chars (P : ascii -> bool) (re : Regex.t) (s : string) :
  Matches re s ->
  Forall (fun a => forall c, cls a c = true -> P c = true) re ->
  allChars P s = true.
Proof.
  induction 1 as [|a re run rest (Hall & _ & _) HM IH]; intros HF;
    [reflexivity|].
  inversion HF as [|? ? Ha Hre]; subst.
  rewrite allChars_app, (allChars_impl _ _ _ Ha Hall), IH; auto.
Qed.

(** The length of a word lies between the bounds of its pattern. *)
Lemma Matches_length (re : Regex.t) (s : string) :
  Matches re s -> bounded re = true ->
  minLen re <= String.length s <= maxLen re.
Proof.
  induction 1 as [|a re run rest (_ & Hlo & Hhi) HM IH]; intros Hb;
    [simpl; lia|].
  simpl in Hb. apply andb_prop in Hb as [Ha Hre].
  specialize (IH Hre). rewrite slength_app. simpl.
  destruct (hi a) as [h|]; [|discriminate]. simpl in Hhi. lia.
Qed.

Lemma partialFirst_dateless (s : string) :
  test partialFirst s = true -> test datelessFormat s = true.
Proof.
  rewrite !test_correct. unfold partialFirst, datelessFormat.
  intros H.
  inversion H as [|a1 re1 r1 t1 (A1 & L1 & U1) H1]; subst; clear H.
  inversion H1 as [|a2 re2 r2 t2 (A2 & L2 & U2) H2]; subst; clear H1.
  inversion H2; subst; clear H2.
  cbn [exactly cls lo hi within] in *.
  repeat (apply Matches_cons;
          [unfold fits, between; cbn [cls lo hi within]; repeat split;
           auto; lia|]).
  apply Matches_nil.
Qed.

(** What each pattern of the table accepts is made of 2 to 7 uppercase
    letters and digits. *)
Lemma structuralTest_shape (s : string) :
  structuralTest s = true ->
  2 <= String.length s <= 7 /\ allChars is_alnum s = true.
Proof.
  unfold structuralTest, patterns. cbn [existsb].
  assert (Hpat : forall re,
             bounded re = true -> 2 <= minLen re -> maxLen re <= 7 ->
             Forall (fun a => forall c, cls a c = true -> is_alnum c = true) re ->
             test re s = true ->
             2 <= String.length s <= 7 /\ allChars is_alnum s = true).
  { intros re Hb Hmin Hmax HF Ht. apply test_correct in Ht.
    pose proof (Matches_length _ _ Ht Hb).
    split; [lia|]. now apply (Matches_chars is_alnum re). }
  assert (HAZ : forall c, is_AZ c = true -> is_alnum c = true).
  { intros c H. unfold is_alnum. now rewrite H. }
  assert (Hdg : forall c, is_digit c = true -> is_alnum c = true).
  { intros c H. unfold is_alnum. rewrite H. apply orb_true_r. }
  intros H. repeat (apply orb_prop in H as [H|H]); try discriminate;
    (eapply Hpat; [| | | |exact H]);
    try reflexivity; try (simpl; lia); repeat constructor; auto.
Qed.

Lemma structuralTest_first (s : string) :
  structuralTest s = true ->
  exists c r, s = String c r /\ is_AZ c = true.
Proof.
  destruct s as [|c r]; [discriminate|]. intros H.
  exists c, r. split; auto.
  destruct (is_AZ c) eqn:E; auto.
  now rewrite (structuralTest_head c r E) in H.
Qed.

End ShapeFacts.

Section MatcherProperties.
Import Regex Server.

(** X1.  Every entry of the list returned by [extractLicensePlates] has
    between 2 and 7 characters, all of them uppercase letters or digits,
    and starts with an uppercase letter; so the registry URL that
    [/upload] requests is the fixed prefix followed by such a key. *)
Theorem detected_plate_is_short_alphanumeric
        (annotations : list TextAnnotation) (p : string) :
  In p (detectedPlates annotations) ->
  2 <= String.length p <= 7
  /\ allChars is_alnum p = true
  /\ (exists c r, p = String c r /\ is_AZ c = true)
  /\ (forall registry rest,
        detectedPlates annotations = p :: rest ->
        snd (run registry (upload (Some annotations))) = [registryUrl p]).
Proof.
  intros Hin.
  assert (Hn : clean p = p) by now apply (licensePlates_normalised annotations).
  assert (Hs : structuralTest p = true).
  { unfold detectedPlates, extractLicensePlates in Hin.
    apply (proj1 (dedupe_In _ _)) in Hin.
    apply pushedPlates_accepted in Hin as [_ Hv].
    now rewrite isValid_structural, Hn in Hv. }
  destruct (structuralTest_shape _ Hs) as [Hlen Hchars].
  repeat split; try lia; auto.
  - now apply structuralTest_first.
  - intros registry rest D. rewrite (run_upload_plates _ _ _ _ D).
    cbn [snd]. now rewrite Hn.
Qed.

Lemma detected_plate_is_short_alphanumeric_witness :
  2 <= String.length "CDE" <= 7.
Proof.
  apply (detected_plate_is_short_alphanumeric
           (map annot ["AB12 CDE"; "AB12"; "CDE"]) "CDE").
  vm_compute. auto.
Defined.

(** X2.  The fifth pattern of the matcher's table (2 letters + 2 digits)
    and the special case for texts of 7 or more characters never change
    the answer: the matcher accepts a text exactly when its normalised
    form matches the current, prefix, suffix or dateless format or is 3
    bare letters. *)
Theorem matcher_table_redundancy (s : string) :
  isValidUKLicensePlate s
  = existsb (fun pattern => test pattern (clean s))
            [currentFormat; prefixFormat; suffixFormat; datelessFormat;
             partialSecond].
Proof.
  rewrite isValid_structural. unfold structuralTest, patterns.
  cbn [existsb]. rewrite !orb_false_r.
  destruct (test partialFirst (clean s)) eqn:E; [|reflexivity].
  rewrite (partialFirst_dateless _ E).
  now rewrite !orb_true_r.
Qed.

End MatcherProperties.


Section CombinationProperties.
Import Regex Server.

Lemma clean_join_space (a b : string) :
  clean (a ++ " " ++ b) = (clean a ++ clean b)%string.
Proof. now rewrite !clean_app. Qed.

Lemma isValid_join (a b : string) :
  isValidUKLicensePlate (a ++ " " ++ b) = isValidUKLicensePlate (a ++ b).
Proof. now rewrite !isValid_structural, clean_join_space, clean_app. Qed.

Lemma method3_In (segments : list string) (p : string) :
  In p (method3 segments) <->
  exists pre a b post,
    segments = pre ++ a :: b :: post
    /\ isValidUKLicensePlate (a ++ b) = true
    /\ p = (clean a ++ clean b)%string.
Proof.
  induction segments as [|a rest IH].
  - split; [intros []|]. intros (pre & ? & ? & ? & E & _).
    destruct pre; discriminate.
  - cbn [method3]. destruct rest as [|b rest'].
    + split; [intros []|]. intros (pre & ? & ? & ? & E & _).
      destruct pre as [|? [|? ?]]; discriminate.
    + cbv zeta. rewrite isValid_join, clean_join_space. split.
      * intros H.
        assert (Hrec : In p (method3 (b :: rest')) ->
                       exists pre a0 b0 post,
                         a :: b :: rest' = pre ++ a0 :: b0 :: post
                         /\ isValidUKLicensePlate (a0 ++ b0) = true
                         /\ p = (clean a0 ++ clean b0)%string).
        { intros Hin. apply IH in Hin as (pre & x & y & post & E & Hv & Hp).
          exists (a :: pre), x, y, post. rewrite E. auto. }
        destruct (isValidUKLicensePlate (a ++ b)) eqn:V; auto.
        destruct H as [<-|H]; auto.
        exists [], a, b, rest'. auto.
      * intros (pre & x & y & post & E & Hv & ->).
        destruct pre as [|z pre].
        -- simpl in E. injection E as <- <- <-. rewrite Hv. now left.
        -- simpl in E. injection E as <- E.
           assert (Hin : In (clean x ++ clean y)%string (method3 (b :: rest'))).
           { apply IH. exists pre, x, y, post. auto. }
           destruct (isValidUKLicensePlate (a ++ b)); [now right|exact Hin].
Qed.

Lemma clean_join3 (a b c : string) :
  clean (a ++ b ++ " " ++ c) = (clean a ++ clean b ++ clean c)%string.
Proof. now rewrite !clean_app. Qed.

Lemma isValid_join3 (a b c : string) :
  isValidUKLicensePlate (a ++ b ++ " " ++ c)
  = isValidUKLicensePlate (a ++ b ++ c).
Proof. now rewrite !isValid_structural, clean_join3, !clean_app. Qed.

Lemma method4_In (segments : list string) (p : string) :
  In p (method4 segments) <->
  exists pre a b c post,
    segments = pre ++ a :: b :: c :: post
    /\ isValidUKLicensePlate (a ++ b ++ c) = true
    /\ p = (clean a ++ clean b ++ clean c)%string.
Proof.
  induction segments as [|a rest IH].
  - split; [intros []|]. intros (pre & ? & ? & ? & ? & E & _).
    destruct pre; discriminate.
  - cbn [method4]. destruct rest as [|b [|c rest']].
    + split; [intros []|]. intros (pre & ? & ? & ? & ? & E & _).
      destruct pre as [|? [|? ?]]; discriminate.
    + split; [intros []|]. intros (pre & ? & ? & ? & ? & E & _).
      destruct pre as [|? [|? [|? ?]]]; discriminate.
    + cbv zeta. rewrite isValid_join3, clean_join3. split.
      * intros H.
        assert (Hrec : In p (method4 (b :: c :: rest')) ->
                       exists pre a0 b0 c0 post,
                         a :: b :: c :: rest' = pre ++ a0 :: b0 :: c0 :: post
                         /\ isValidUKLicensePlate (a0 ++ b0 ++ c0) = true
                         /\ p = (clean a0 ++ clean b0 ++ clean c0)%string).
        { intros Hin.
          apply IH in Hin as (pre & x & y & z & post & E & Hv & Hp).
          exists (a :: pre), x, y, z, post. rewrite E. auto. }
        destruct (isValidUKLicensePlate (a ++ b ++ c)) eqn:V; auto.
        destruct H as [<-|H]; auto.
        exists [], a, b, c, rest'. auto.
      * intros (pre & x & y & z & post & E & Hv & ->).
        destruct pre as [|w pre].
        -- simpl in E. injection E as <- <- <- <-. rewrite Hv. now left.
        -- simpl in E. injection E as <- E.
           assert (Hin : In (clean x ++ clean y ++ clean z)%string
                            (method4 (b :: c :: rest'))).
           { apply IH. exists pre, x, y, z, post. auto. }
           destruct (isValidUKLicensePlate (a ++ b ++ c));
             [now right|exact Hin].
Qed.

(** X3.  The separators used when fragments are combined do not matter.
    The pair strategy pushes a candidate exactly for two adjacent text
    segments whose plain concatenation the matcher accepts, and the
    triple strategy exactly for three adjacent segments whose plain
    concatenation the matcher accepts; the candidate is the concatenation
    of the normalised segments. *)
Theorem combination_strategies_concatenate (segments : list string)
        (p : string) :
  (In p (method3 segments) <->
   exists pre a b post,
     segments = pre ++ a :: b :: post
     /\ isValidUKLicensePlate (a ++ b) = true
     /\ p = (clean a ++ clean b)%string)
  /\ (In p (method4 segments) <->
      exists pre a b c post,
        segments = pre ++ a :: b :: c :: post
        /\ isValidUKLicensePlate (a ++ b ++ c) = true
        /\ p = (clean a ++ clean b ++ clean c)%string).
Proof. split; [apply method3_In|apply method4_In]. Qed.

Lemma combination_strategies_concatenate_witness :
  In "YF65CVK" (method4 ["see"; "yf"; "65"; "cvk"]).
Proof.
  apply (proj2 (proj2 (combination_strategies_concatenate
                         ["see"; "yf"; "65"; "cvk"] "YF65CVK"))).
  exists ["see"], "yf", "65", "cvk", []. repeat split.
Defined.

Lemma method2_app (xs ys : list TextAnnotation) :
  method2 (xs ++ ys) = method2 xs ++ method2 ys.
Proof.
  induction xs as [|a xs IH]; simpl; [reflexivity|].
  destruct (truthyText (trimmed a)) as [t|]; [|exact IH].
  destruct (isValidUKLicensePlate t); simpl; now rewrite IH.
Qed.

Lemma keepTruthy_app (xs ys : list (option string)) :
  keepTruthy (xs ++ ys) = keepTruthy xs ++ keepTruthy ys.
Proof.
  induction xs as [|o xs IH]; simpl; [reflexivity|].
  destruct (truthyText o); simpl; now rewrite IH.
Qed.

Lemma trimStart_spaces (d : string) :
  allChars is_space d = true -> trimStart d = "".
Proof.
  induction d as [|c d IH]; simpl; [reflexivity|].
  intros H. apply andb_prop in H as [-> Hd]. auto.
Qed.

(** X4.  An annotation after the first whose description is absent, empty
    or made of whitespace only has no effect on the detected plates: with
    or without it the result is the same. *)
Theorem blank_fragment_is_ignored
        (first : TextAnnotation) (pre post : list TextAnnotation)
        (blank : TextAnnotation) :
  (description blank = None
   \/ exists d, description blank = Some d /\ allChars is_space d = true) ->
  detectedPlates (first :: pre ++ blank :: post)
  = detectedPlates (first :: pre ++ post).
Proof.
  intros Hb.
  assert (Ht : truthyText (trimmed blank) = None).
  { unfold trimmed. destruct Hb as [->|(d & -> & Hd)]; [reflexivity|].
    simpl. unfold trim. now rewrite (trimStart_spaces _ Hd). }
  unfold detectedPlates, extractLicensePlates, pushedPlates, textSegments.
  cbn [fullTextOf tl]. f_equal. f_equal. f_equal.
  - change (first :: pre ++ blank :: post)
      with ((first :: pre) ++ [blank] ++ post).
    change (first :: pre ++ post) with ((first :: pre) ++ post).
    rewrite !method2_app. cbn [method2]. now rewrite Ht.
  - assert (E : keepTruthy (map trimmed (pre ++ blank :: post))
                = keepTruthy (map trimmed (pre ++ post))).
    { rewrite !map_app, !keepTruthy_app. cbn [map keepTruthy].
      now rewrite Ht. }
    now rewrite E.
Qed.

Lemma blank_fragment_is_ignored_witness :
  detectedPlates (annot "AB12 CDE" :: [annot "AB12"] ++ annot "  " :: [annot "CDE"])
  = detectedPlates (annot "AB12 CDE" :: [annot "AB12"] ++ [annot "CDE"]).
Proof.
  apply (blank_fragment_is_ignored (annot "AB12 CDE") [annot "AB12"]
           [annot "CDE"] (annot "  ")).
  right. exists "  ". split; reflexivity.
Defined.

End CombinationProperties.


Section UploadProperties.
Import Regex Server.

Lemma run_upload_no_plates registry annotations :
  detectedPlates annotations = [] ->
  run registry (upload (Some annotations))
  = (fst (run registry (upload (Some annotations))), [])
  /\ vehicleData (fst (run registry (upload (Some annotations)))) = None
  /\ (licensePlates (fst (run registry (upload (Some annotations)))) = None
      \/ licensePlates (fst (run registry (upload (Some annotations))))
         = Some [])
  /\ (hasText (fst (run registry (upload (Some annotations)))) = true ->
      exists t, truthyText (fullTextOf annotations) = Some t
                /\ 2 <= String.length (trim t)
                /\ isTimestamp (fullTextOf annotations) = false).
Proof.
  intros D. destruct annotations as [|a l].
  - simpl. repeat split; auto. discriminate.
  - unfold upload. rewrite D. cbv zeta.
    destruct (truthyText (fullTextOf (a :: l))) as [t|] eqn:T.
    + destruct (isTimestamp (fullTextOf (a :: l))) eqn:Ts;
        [simpl; repeat split; auto; discriminate|].
      unfold isShortMeaningless. rewrite T.
      destruct (String.length (trim t) <? 2) eqn:L; simpl;
        [repeat split; auto; discriminate|].
      apply Nat.ltb_ge in L. repeat split; auto. exists t. auto.
    + simpl. repeat split; auto. discriminate.
Qed.

(** X5.  For any input the [/upload] handler sends at most one request to
    the registry.  When no plate is detected (absent or empty
    annotations included) it sends none, the response carries no vehicle
    data and no plate, and [hasText] is true only when the trimmed full
    text has at least 2 characters and is not of the timestamp shape. *)
Theorem upload_requests_registry_at_most_once
        (registry : string -> AxiosOutcome)
        (textAnnotations : option (list TextAnnotation)) :
  let answer := run registry (upload textAnnotations) in
  List.length (snd answer) <= 1
  /\ (match textAnnotations with
      | Some annotations => detectedPlates annotations = []
      | None => True
      end ->
      snd answer = []
      /\ vehicleData (fst answer) = None
      /\ (licensePlates (fst answer) = None
          \/ licensePlates (fst answer) = Some [])
      /\ (hasText (fst answer) = true ->
          exists annotations t,
            textAnnotations = Some annotations
            /\ truthyText (fullTextOf annotations) = Some t
            /\ 2 <= String.length (trim t)
            /\ isTimestamp (fullTextOf annotations) = false)).
Proof.
  cbv zeta. destruct textAnnotations as [annotations|].
  - destruct (detectedPlates annotations) as [|first rest] eqn:D.
    + destruct (run_upload_no_plates registry annotations D)
        as (E & Hv & Hl & Hh).
      rewrite E. cbn [fst snd]. split; [simpl; lia|]. intros _.
      repeat split; auto.
      intros H. destruct (Hh H) as (t & Ht). exists annotations, t. tauto.
    + rewrite (run_upload_plates _ _ _ _ D). cbn [snd].
      split; [simpl; lia|discriminate].
  - simpl. split; [lia|]. intros _. repeat split; auto. discriminate.
Qed.

Lemma upload_requests_registry_at_most_once_witness :
  snd (run (fun _ => Thrown) (upload (Some [annot "hello world"]))) = [].
Proof.
  apply (proj2 (upload_requests_registry_at_most_once
                  (fun _ => Thrown) (Some [annot "hello world"]))).
  reflexivity.
Defined.

Lemma allChars_trimStart_inv (P : ascii -> bool) (s : string) :
  (forall c, is_space c = true -> P c = true) ->
  allChars P (trimStart s) = true -> allChars P s = true.
Proof.
  intros HP. induction s as [|c s IH]; simpl; auto.
  destruct (is_space c) eqn:E; [|auto].
  intros H. now rewrite (HP _ E), IH.
Qed.

Lemma allChars_trimEnd_inv (P : ascii -> bool) (s : string) :
  (forall c, is_space c = true -> P c = true) ->
  allChars P (trimEnd s) = true -> allChars P s = true.
Proof.
  intros HP. induction s as [|c s IH]; simpl; auto.
  destruct (trimEnd s) as [|d r] eqn:T.
  - destruct (is_space c) eqn:E; simpl; intros H.
    + now rewrite (HP _ E), IH.
    + apply andb_prop in H as [-> _]. now rewrite IH.
  - simpl. intros H. apply andb_prop in H as [-> H]. now rewrite IH.
Qed.

Lemma allChars_trimStart (P : ascii -> bool) (s : string) :
  allChars P s = true -> allChars P (trimStart s) = true.
Proof.
  induction s as [|c s IH]; simpl; auto.
  intros H. destruct (is_space c); [|exact H].
  apply andb_prop in H as [_ H]. auto.
Qed.

Lemma allChars_trimEnd (P : ascii -> bool) (s : string) :
  allChars P s = true -> allChars P (trimEnd s) = true.
Proof.
  induction s as [|c s IH]; simpl; auto.
  intros H. apply andb_prop in H as [Hc H]. specialize (IH H).
  destruct (trimEnd s) as [|d r].
  - destruct (is_space c); simpl; auto. now rewrite Hc.
  - simpl. simpl in IH. now rewrite Hc, IH.
Qed.

Lemma allChars_trim_inv (P : ascii -> bool) (s : string) :
  (forall c, is_space c = true -> P c = true) ->
  allChars P (trim s) = true -> allChars P s = true.
Proof.
  intros HP H. apply allChars_trimStart_inv; auto.
  now apply allChars_trimEnd_inv.
Qed.

Lemma allChars_cleanFullText (P : ascii -> bool) (s : string) :
  P " "%char = true ->
  allChars P s = true -> allChars P (cleanFullTextOf s) = true.
Proof.
  intros Hsp H. unfold cleanFullTextOf, trim.
  apply allChars_trimEnd, allChars_trimStart. unfold collapseSpaces.
  assert (Hn : allChars P (newlinesToSpaces s) = true).
  { induction s as [|c s IH]; cbn [newlinesToSpaces allChars]; auto.
    cbn [allChars] in H. apply andb_prop in H as [Hc H].
    destruct (is_char "010" c); now rewrite ?Hsp, ?Hc, IH. }
  generalize false. revert Hn. generalize (newlinesToSpaces s).
  intros u. induction u as [|c u IH]; intros Hu b; simpl; auto.
  simpl in Hu. apply andb_prop in Hu as [Hc Hu].
  destruct (is_space c); [destruct b|]; simpl; now rewrite ?Hsp, ?Hc, IH.
Qed.

Lemma stamp_space c : is_space c = true -> is_stamp c = true.
Proof. intros H. unfold is_stamp. rewrite H. apply orb_true_r. Qed.

Lemma stamp_not_letter c : is_stamp c = true -> is_AZ (upper c) = false.
Proof.
  destruct c as [[] [] [] [] [] [] [] []]; vm_compute; intros;
    try reflexivity; discriminate.
Qed.

Lemma stamp_not_AZ c : is_stamp c = true -> is_AZ c = false.
Proof.
  destruct c as [[] [] [] [] [] [] [] []]; vm_compute; intros;
    try reflexivity; discriminate.
Qed.

Lemma timestamp_chars (s : string) :
  test timestampShape s = true -> allChars is_stamp s = true.
Proof.
  intros H. apply test_correct in H.
  apply (Matches_chars is_stamp timestampShape s H).
  assert (Hd : forall c, is_digit c = true -> is_stamp c = true).
  { intros c Hc. unfold is_stamp. now rewrite Hc. }
  assert (Hdot : forall c, is_char "." c = true -> is_stamp c = true).
  { intros c Hc. unfold is_stamp. rewrite Hc. now rewrite orb_true_r. }
  assert (Hcol : forall c, is_char ":" c = true -> is_stamp c = true).
  { intros c Hc. unfold is_stamp. rewrite Hc. now rewrite !orb_true_r. }
  unfold timestampShape. repeat constructor; auto using stamp_space.
Qed.

(** A text of timestamp characters holds no word of the scan pattern. *)
Lemma stamp_text_no_scan (s : string) :
  allChars is_stamp s = true -> matchAll plateScan s = [].
Proof.
  intros H. destruct (matchAll plateScan s) as [|m ms] eqn:E; [reflexivity|].
  exfalso.
  assert (Hin : In m (matchAllFrom plateScan 0 s)).
  { unfold matchAll in E. rewrite E. now left. }
  apply matchAllFrom_sound in Hin as (pre & post & -> & HM).
  rewrite !allChars_app in H.
  apply andb_prop in H as [_ H]. apply andb_prop in H as [Hm _].
  unfold plateScan in HM.
  inversion HM as [|a1 re1 r1 t1 (A1 & L1 & _) H1]; subst.
  cbn [exactly cls lo] in A1, L1.
  destruct r1 as [|c r1]; [simpl in L1; lia|].
  cbn [allChars append] in A1, Hm.
  apply andb_prop in A1 as [Hc _]. apply andb_prop in Hm as [Hs _].
  now rewrite (stamp_not_AZ _ Hs) in Hc.
Qed.

Lemma stamp_text_rejected (s : string) :
  allChars is_stamp s = true -> isValidUKLicensePlate s = false.
Proof.
  intros H. rewrite isValid_structural.
  assert (Hc : allChars (fun c => negb (is_AZ c)) (clean s) = true).
  { unfold clean. induction s as [|c s IH]; simpl; auto.
    simpl in H. apply andb_prop in H as [Hc H].
    destruct (is_space c); simpl; auto.
    now rewrite (stamp_not_letter _ Hc), IH. }
  destruct (clean s) as [|c r]; [reflexivity|].
  simpl in Hc. apply andb_prop in Hc as [Hc _].
  apply structuralTest_head. now destruct (is_AZ c).
Qed.

(** X6.  When the trimmed text of the first annotation has the timestamp
    shape (dd.dd.dd to dd.dd.dddd, whitespace, d:dd:dd or dd:dd:dd), the
    full text yields no candidate, neither from the scan nor as a single
    fragment: the detected plates come from the other annotations only.
    With no other annotation nothing is detected, no registry request is
    made and the response is the "No meaningful text" one with [hasText]
    false. *)
Theorem timestamp_text_yields_no_plate
        (first : TextAnnotation) (rest : list TextAnnotation) :
  isTimestamp (fullTextOf (first :: rest)) = true ->
  method1 (fullTextOf (first :: rest)) = []
  /\ detectedPlates (first :: rest)
     = dedupe (method2 rest ++ method3 (textSegments (first :: rest))
                 ++ method4 (textSegments (first :: rest)))
  /\ (rest = [] ->
      forall registry,
        run registry (upload (Some [first]))
        = ({| hasText := false; text := []; fullText := None;
              allText := None; licensePlates := Some [];
              vehicleData := None;
              message :=
                "No meaningful text or license plates detected in the image" |},
           [])).
Proof.
  intros Hts.
  assert (Hft : exists ft, fullTextOf (first :: rest) = Some ft
                           /\ allChars is_stamp ft = true).
  { unfold isTimestamp in Hts.
    destruct (fullTextOf (first :: rest)) as [ft|]; [|discriminate].
    exists ft. split; auto. simpl in Hts.
    apply (allChars_trim_inv is_stamp ft stamp_space).
    destruct (truthy (trim ft)) eqn:T; simpl in Hts.
    - now apply timestamp_chars.
    - destruct (trim ft); [reflexivity|discriminate]. }
  destruct Hft as (ft & Eft & Hst).
  assert (H1 : method1 (fullTextOf (first :: rest)) = []).
  { rewrite Eft. unfold method1. destruct (truthyText (Some ft)) as [t|] eqn:T;
      [|reflexivity].
    assert (t = ft) as -> by (simpl in T; destruct (truthy ft); congruence).
    rewrite (stamp_text_no_scan (cleanFullTextOf ft)); [reflexivity|].
    now apply allChars_cleanFullText. }
  assert (H2 : method2 (first :: rest) = method2 rest).
  { cbn [method2]. simpl in Eft. rewrite Eft.
    destruct (truthyText (Some ft)) as [t|] eqn:T; [|reflexivity].
    assert (t = ft) as -> by (simpl in T; destruct (truthy ft); congruence).
    now rewrite (stamp_text_rejected _ Hst). }
  assert (HD : detectedPlates (first :: rest)
               = dedupe (method2 rest ++ method3 (textSegments (first :: rest))
                           ++ method4 (textSegments (first :: rest)))).
  { unfold detectedPlates, extractLicensePlates, pushedPlates.
    now rewrite H1, H2. }
  split; [exact H1|]. split; [exact HD|].
  intros -> registry.
  assert (D : detectedPlates [first] = []) by (rewrite HD; reflexivity).
  unfold upload. rewrite D. cbv zeta. rewrite Hts. cbn [negb andb].
  destruct (truthyText (fullTextOf [first])); reflexivity.
Qed.

Lemma timestamp_text_yields_no_plate_witness :
  detectedPlates [annot "12.05.2024  9:32:10"; annot "AB12CDE"]
  = dedupe (method2 [annot "AB12CDE"]
              ++ method3 (textSegments
                            [annot "12.05.2024  9:32:10"; annot "AB12CDE"])
              ++ method4 (textSegments
                            [annot "12.05.2024  9:32:10"; annot "AB12CDE"])).
Proof.
  apply (proj1 (proj2 (timestamp_text_yields_no_plate
                         (annot "12.05.2024  9:32:10") [annot "AB12CDE"]
                         eq_refl))).
Defined.

End UploadProperties.


Section RegistryProperties.
Import Server.

Lemma prop_eq (v : json) (key : string) :
  prop v key = if nullish v then None else Some (member v key).
Proof. destruct v; reflexivity. Qed.

Lemma path_cons (v : json) (key : string) (keys : list string) :
  nullish v = false -> path v (key :: keys) = path (member v key) keys.
Proof. intros H. cbn [path]. now rewrite prop_eq, H. Qed.

Ltac rhs_eval :=
  unfold holdsObject;
  repeat match goal with
         | H : nullish ?v = false |- context [path ?v (?k :: ?ks)] =>
             rewrite (path_cons v k ks H)
         end;
  cbn [path];
  repeat match goal with
         | H : nullish ?v = _ |- context [nullish ?v] => rewrite H
         end;
  cbn [negb andb].

Ltac decode_step :=
  rewrite ?prop_eq;
  match goal with
  | |- context [nullish ?v] =>
      destruct (nullish v) eqn:?; [rhs_eval; reflexivity|cbv beta iota]
  end.

(** The lookup decodes a body exactly when its status is 'success' and
    every object it reads from is there; the result is then the plain
    projection of the body. *)
Lemma decodeVehicle_eq (data : json) :
  decodeVehicle data
  = if statusOk data && forallb (holdsObject data) objectPaths
    then Some (projection data) else None.
Proof.
  unfold decodeVehicle, orThrow, statusOk, objectPaths, projection.
  cbn [forallb]. rewrite !prop_eq.
  destruct (nullish data) eqn:Hd; [reflexivity|].
  destruct (isSuccess (member data "status")); cbn [negb andb];
    [|reflexivity].
  repeat decode_step. rhs_eval. reflexivity.
Qed.

Ltac holds_fact H :=
  unfold holdsObject in H;
  repeat match type of H with
         | context [path ?v (?k :: ?ks)] =>
             match goal with
             | Hn : nullish v = false |- _ => rewrite (path_cons v k ks Hn) in H
             end
         end;
  cbn [path] in H; apply negb_true_iff in H.

Lemma isSuccess_inv (status : json) :
  isSuccess status = true -> status = JStr "success".
Proof.
  destruct status; try discriminate. simpl. intros H.
  apply String.eqb_eq in H. now subst.
Qed.

(** X7.  [lookupVehicle] decodes a resolved body exactly when the body's
    status is the string 'success' and each of the fourteen objects it
    reads from ([data], [data.vehicle_description], ...) is present and
    not null.  The record it returns is then the plain projection of the
    body: every field holds the value found at its path, unchanged, and
    an absent leaf field does not fail the lookup. *)
Theorem lookup_decodes_by_projection (data : json) :
  ((exists v, decodeVehicle data = Some v) <->
   prop data "status" = Some (JStr "success")
   /\ forall keys, In keys objectPaths ->
        exists o, path data keys = Some o /\ nullish o = false)
  /\ (forall v, decodeVehicle data = Some v ->
      path data ["data"; "registration number"] = Some (registrationNumber v)
      /\ path data ["data"; "vehicle_description"; "year"] = Some (year v)
      /\ path data ["data"; "vehicle_description"; "make"] = Some (make v)
      /\ path data ["data"; "vehicle_description"; "model"] = Some (model v)
      /\ path data ["data"; "vehicle_description"; "bodystyle"]
         = Some (bodystyle v)
      /\ path data ["data"; "vehicle_description"; "color"] = Some (color v)
      /\ path data ["data"; "vehicle_description"; "engine"] = Some (engine v)
      /\ path data ["data"; "vehicle_description"; "cylinders"]
         = Some (cylinders v)
      /\ path data ["data"; "vehicle_description"; "gears"] = Some (gears v)
      /\ path data ["data"; "vehicle_description"; "fuel_type"]
         = Some (fuel_type v)
      /\ path data ["data"; "vehicle_registration"; "date_first_registered"]
         = Some (date_first_registered v)
      /\ path data ["data"; "mot_tax_dues"; "mot_due"; "status"]
         = Some (mot_due_status v)
      /\ path data ["data"; "mot_tax_dues"; "mot_due"; "ends on"]
         = Some (mot_due_ends v)
      /\ path data ["data"; "mot_tax_dues"; "tax_due"; "status"]
         = Some (tax_due_status v)
      /\ path data ["data"; "mot_tax_dues"; "tax_due"; "ends on"]
         = Some (tax_due_ends v)
      /\ path data ["data"; "vehicle_performance"; "power"; "bhp"]
         = Some (power_bhp v)
      /\ path data ["data"; "vehicle_performance"; "power"; "kw"]
         = Some (power_kw v)
      /\ path data ["data"; "vehicle_performance"; "max_speed"; "mph"]
         = Some (max_speed_mph v)
      /\ path data ["data"; "fuel_economy"; "combined"; "mpg"]
         = Some (fuel_economy_combined v)
      /\ path data ["data"; "fuel_economy"; "extra_urban"; "mpg"]
         = Some (fuel_economy_extra_urban v)
      /\ path data ["data"; "fuel_economy"; "urban_cold"; "mpg"]
         = Some (fuel_economy_urban v)
      /\ path data ["data"; "co2_emissions_figures"; "co2_emission"]
         = Some (co2_emission v)
      /\ path data ["data"; "co2_emissions_figures"; "ved_co2_band"]
         = Some (ved_co2_band v)).
Proof.
  rewrite decodeVehicle_eq. split.
  - split.
    + intros (v & H).
      destruct (statusOk data && forallb (holdsObject data) objectPaths) eqn:E;
        [|discriminate].
      apply andb_prop in E as [Hs Hf]. split.
      * unfold statusOk in Hs. destruct (prop data "status") as [st|];
          [|discriminate].
        now rewrite (isSuccess_inv _ Hs).
      * intros keys Hin.
        pose proof (proj1 (forallb_forall _ _) Hf keys Hin) as Hk.
        unfold holdsObject in Hk. destruct (path data keys) as [o|];
          [|discriminate].
        exists o. split; auto. now apply negb_true_iff.
    + intros (Hs & Hp).
      assert (E : statusOk data && forallb (holdsObject data) objectPaths
                  = true).
      { apply andb_true_intro. split.
        - unfold statusOk. now rewrite Hs.
        - apply forallb_forall. intros keys Hin.
          destruct (Hp keys Hin) as (o & Ho & Hn).
          unfold holdsObject. now rewrite Ho, Hn. }
      rewrite E. eauto.
  - intros v H.
    destruct (statusOk data && forallb (holdsObject data) objectPaths) eqn:E;
      [|discriminate].
    injection H as <-. apply andb_prop in E as [Hs F].
    assert (Hd : nullish data = false).
    { unfold statusOk in Hs. rewrite prop_eq in Hs.
      destruct (nullish data); [discriminate|reflexivity]. }
    unfold objectPaths in F. cbn [forallb] in F.
    repeat (let H := fresh "Hn" in
            apply andb_prop in F as [H F]; holds_fact H).
    unfold projection.
    cbn [registrationNumber year make model bodystyle color engine cylinders
         gears fuel_type date_first_registered mot_due_status mot_due_ends
         tax_due_status tax_due_ends power_bhp power_kw max_speed_mph
         fuel_economy_combined fuel_economy_extra_urban fuel_economy_urban
         co2_emission ved_co2_band].
    repeat split;
      repeat match goal with
             | Hn : nullish ?v = false |- context [path ?v (?k :: ?ks)] =>
                 rewrite (path_cons v k ks Hn)
             end;
      reflexivity.
Qed.

Lemma lookup_decodes_by_projection_witness :
  exists v,
    decodeVehicle
      (JObj [("status", JStr "success");
             ("data",
              JObj [("registration number", JStr "AB12CDE");
                    ("vehicle_description",
                     JObj [("make", JStr "Audi");
                           ("model", JStr "Q3 TDI S Line")]);
                    ("vehicle_registration", JObj []);
                    ("mot_tax_dues",
                     JObj [("mot_due", JObj []); ("tax_due", JObj [])]);
                    ("vehicle_performance",
                     JObj [("power", JObj [("bhp", JStr "148 BHP")]);
                           ("max_speed", JObj [])]);
                    ("fuel_economy",
                     JObj [("combined", JObj []); ("extra_urban", JObj []);
                           ("urban_cold", JObj [])]);
                    ("co2_emissions_figures", JObj [])])])
    = Some v.
Proof.
  apply (proj2 (proj1 (lookup_decodes_by_projection _))).
  split; [reflexivity|].
  intros keys Hin. simpl in Hin.
  repeat (destruct Hin as [<-|Hin]; [eexists; split; reflexivity|]).
  contradiction.
Defined.








End RegistryProperties.


(* ================================================================== *)
(** * Further properties of the on-device collection                  *)
(* ================================================================== *)

Section CollectionProperties.
Import App.

(** X10.  [saveToCollection] returns true exactly when both storage
    operations succeed and the vehicle's key is not stored yet.  It then
    appends one record built from the vehicle, the image and the clock
    and reports the new total; in every other case the storage is left
    as it was.  Stored records are never removed, changed or reordered. *)
Theorem saveToCollection_effect
        (dev : Device) (vehicle : VehicleData) (uri : string)
        (storage : Storage) :
  let saved := saveToCollection dev vehicle uri storage in
  (returned saved = true <->
   getItemRejects dev = false /\ setItemRejects dev = false
   /\ ~ In (fullModelOf vehicle) (map fullModel (records storage)))
  /\ records (stored saved)
     = records storage
         ++ (if returned saved
             then [{| id := dateNow dev;
                      item_make := make vehicle;
                      item_model := model vehicle;
                      imageUri := uri;
                      dateSpotted := dateIso dev;
                      fullModel := fullModelOf vehicle |}]
             else [])
  /\ (returned saved = true ->
      alert saved = VehicleCollected (S (List.length (records storage))))
  /\ (returned saved = false -> stored saved = storage).
Proof.
  cbv zeta. unfold saveToCollection. fold (records storage).
  destruct (getItemRejects dev).
  { cbn [returned stored alert]. rewrite app_nil_r.
    repeat split; try discriminate; auto. intros (H & _). discriminate. }
  destruct (existsb _ _) eqn:E.
  { cbn [returned stored alert]. rewrite app_nil_r.
    apply isDuplicate_In in E.
    repeat split; try discriminate; auto. intros (_ & _ & H). contradiction. }
  assert (Hfresh : ~ In (fullModelOf vehicle) (map fullModel (records storage))).
  { intros Hin. apply isDuplicate_In in Hin. congruence. }
  destruct (setItemRejects dev); cbn [returned stored alert records].
  - rewrite app_nil_r. repeat split; try discriminate; auto.
    intros (_ & H & _). discriminate.
  - repeat split; auto; try discriminate.
    intros _. f_equal. rewrite length_app. simpl. lia.
Qed.

Lemma saveToCollection_effect_witness :
  alert (saveToCollection
           {| getItemRejects := false; setItemRejects := false;
              dateNow := "1700000000000";
              dateIso := "2023-11-14T22:13:20.000Z" |}
           {| make := "Audi"; model := "Q3" |} "file:///a.jpg" None)
  = VehicleCollected 1.
Proof.
  apply (proj1 (proj2 (proj2 (saveToCollection_effect _ _ _ None)))).
  reflexivity.
Defined.





Lemma insertSorted_In (x : string) (l : list string) (y : string) :
  In y (insertSorted x l) <-> y = x \/ In y l.
Proof.
  induction l as [|z l IH]; simpl; [intuition congruence|].
  destruct (String.leb x z); simpl; [intuition congruence|].
  rewrite IH. tauto.
Qed.

Lemma insertSorted_length (x : string) (l : list string) :
  List.length (insertSorted x l) = S (List.length l).
Proof.
  induction l as [|z l IH]; simpl; [reflexivity|].
  destruct (String.leb x z); simpl; auto.
Qed.

Lemma insertSorted_NoDup (x : string) (l : list string) :
  NoDup l -> ~ In x l -> NoDup (insertSorted x l).
Proof.
  induction l as [|z l IH]; simpl; intros Hnd Hx.
  - repeat constructor. intros [].
  - destruct (String.leb x z); [constructor; auto|].
    inversion Hnd as [|? ? Hz Hl]; subst. constructor.
    + rewrite insertSorted_In. intros [->|H]; auto.
    + apply IH; auto.
Qed.

Lemma insertSorted_HdRel (x y : string) (l : list string) :
  HdRel ascending y l -> ascending y x ->
  HdRel ascending y (insertSorted x l).
Proof.
  intros Hl Hyx. destruct l as [|z l]; simpl; [now constructor|].
  destruct (String.leb x z); constructor; auto.
  now inversion Hl.
Qed.

Lemma insertSorted_Sorted (x : string) (l : list string) :
  Sorted ascending l -> Sorted ascending (insertSorted x l).
Proof.
  induction 1 as [|z l Hs IH Hd]; simpl; [repeat constructor|].
  destruct (String.leb x z) eqn:E.
  - constructor; [now constructor|]. now constructor.
  - constructor; auto. apply insertSorted_HdRel; auto.
    destruct (String.leb_total x z) as [H|H]; [congruence|exact H].
Qed.

Lemma sortStrings_In (l : list string) (y : string) :
  In y (sortStrings l) <-> In y l.
Proof.
  induction l as [|x l IH]; simpl; [tauto|].
  rewrite insertSorted_In, IH. intuition congruence.
Qed.

Lemma sortStrings_length (l : list string) :
  List.length (sortStrings l) = List.length l.
Proof.
  induction l as [|x l IH]; simpl; [reflexivity|].
  now rewrite insertSorted_length, IH.
Qed.

Lemma sortStrings_NoDup (l : list string) :
  NoDup l -> NoDup (sortStrings l).
Proof.
  induction 1 as [|x l Hx Hl IH]; simpl; [constructor|].
  apply insertSorted_NoDup; auto. now rewrite sortStrings_In.
Qed.

Lemma sortStrings_Sorted (l : list string) : Sorted ascending (sortStrings l).
Proof.
  induction l as [|x l IH]; simpl; [constructor|].
  now apply insertSorted_Sorted.
Qed.

Lemma uniqueMakes_members (collection : list CollectedVehicle) (m : string) :
  In m (uniqueMakes collection) <->
  exists vehicle, In vehicle collection /\ item_make vehicle = m.
Proof.
  unfold uniqueMakes. rewrite sortStrings_In, dedupe_In, in_map_iff.
  split; intros (v & H1 & H2); exists v; auto.
Qed.

(** X12.  The makes offered as filters on the collection screen are
    exactly the makes of the collected vehicles, each listed once, in
    ascending order; there are at most as many as vehicles, and at least
    one when the collection is not empty. *)
Theorem uniqueMakes_sorted_distinct (collection : list CollectedVehicle) :
  (forall m, In m (uniqueMakes collection) <->
             exists vehicle, In vehicle collection /\ item_make vehicle = m)
  /\ NoDup (uniqueMakes collection)
  /\ Sorted ascending (uniqueMakes collection)
  /\ List.length (uniqueMakes collection) <= List.length collection
  /\ (collection <> [] -> uniqueMakes collection <> []).
Proof.
  unfold uniqueMakes.
  assert (Hin : forall m, In m (sortStrings (Server.dedupe
                                               (map item_make collection)))
                          <-> exists vehicle, In vehicle collection
                                              /\ item_make vehicle = m).
  { intros m. rewrite sortStrings_In, dedupe_In, in_map_iff.
    split; intros (v & H1 & H2); exists v; auto. }
  split; [exact Hin|]. split; [|split; [|split]].
  - apply sortStrings_NoDup, dedupe_NoDup.
  - apply sortStrings_Sorted.
  - rewrite sortStrings_length, <- (length_map item_make collection).
    apply NoDup_incl_length; [apply dedupe_NoDup|].
    intros m Hm. exact (proj1 (dedupe_In _ _) Hm).
  - intros Hne. destruct collection as [|v c]; [contradiction|].
    intros E.
    assert (H : In (item_make v)
                   (sortStrings (Server.dedupe (map item_make (v :: c))))).
    { apply Hin. exists v. split; [now left|reflexivity]. }
    rewrite E in H. destruct H.
Qed.

Lemma uniqueMakes_sorted_distinct_witness :
  uniqueMakes
    [{| id := "1"; item_make := "Volvo"; item_model := "V60";
        imageUri := "a"; dateSpotted := "d"; fullModel := "volvo v60" |}]
  <> [].
Proof.
  apply (proj2 (proj2 (proj2 (proj2 (uniqueMakes_sorted_distinct _))))).
  discriminate.
Defined.

End CollectionProperties.


Section FilterProperties.
Import App.

Lemma prefix_app (n post : string) : String.prefix n (n ++ post) = true.
Proof.
  induction n as [|c n IH]; simpl; [destruct post; reflexivity|].
  destruct (ascii_dec c c); [exact IH|contradiction].
Qed.

Lemma prefix_inv (n h : string) :
  String.prefix n h = true -> exists post, h = (n ++ post)%string.
Proof.
  revert h. induction n as [|c n IH]; intros h H.
  - exists h. reflexivity.
  - destruct h as [|d h]; [discriminate|]. simpl in H.
    destruct (ascii_dec c d) as [->|]; [|discriminate].
    destruct (IH _ H) as (post & ->). exists post. reflexivity.
Qed.

(** [includes] holds exactly when the needle occurs in the text. *)
Lemma includes_spec (hay needle : string) :
  includes hay needle = true <->
  exists pre post, hay = (pre ++ needle ++ post)%string.
Proof.
  induction hay as [|c hay IH]; cbn [includes].
  - rewrite orb_false_r. split.
    + intros H. apply prefix_inv in H as (post & ->). exists "", post.
      reflexivity.
    + intros (pre & post & E). destruct pre; [|discriminate].
      simpl in E. rewrite E. apply prefix_app.
  - split.
    + intros H. apply orb_prop in H as [H|H].
      * apply prefix_inv in H as (post & ->). exists "", post. reflexivity.
      * apply IH in H as (pre & post & ->). exists (String c pre), post.
        reflexivity.
    + intros (pre & post & E). destruct pre as [|d pre].
      * simpl in E. rewrite E, prefix_app. reflexivity.
      * simpl in E. injection E as <- E.
        assert (H : includes hay needle = true) by (apply IH; eauto).
        rewrite H. apply orb_true_r.
Qed.

Lemma toLowerCase_truthy (q : string) : truthy (toLowerCase q) = truthy q.
Proof. destruct q; reflexivity. Qed.

(** X13.  The list shown on the collection screen holds, in the order of
    the collection, exactly the vehicles that have the selected make (when
    one is selected) and whose make or model, lowercased, contains the
    lowercased search query (when one is typed).  With no make selected
    and no query it is the whole collection. *)
Theorem filterCollection_membership
        (collection : list CollectedVehicle)
        (selectedMake : option string) (searchQuery : string) :
  (forall vehicle,
      In vehicle (filterCollection collection selectedMake searchQuery) <->
      In vehicle collection
      /\ (forall selected, Server.truthyText selectedMake = Some selected ->
                           item_make vehicle = selected)
      /\ (searchQuery <> "" ->
          exists pre post,
            toLowerCase (item_make vehicle)
            = (pre ++ toLowerCase searchQuery ++ post)%string
            \/ toLowerCase (item_model vehicle)
               = (pre ++ toLowerCase searchQuery ++ post)%string))
  /\ (exists keep,
        filterCollection collection selectedMake searchQuery
        = filter keep collection)
  /\ filterCollection collection None "" = collection
  /\ filterCollection collection (Some "") "" = collection.
Proof.
  split; [|split; [|split; reflexivity]].
  - intros v. unfold filterCollection.
    assert (Hq : forall l,
               In v (if truthy searchQuery
                     then filter (fun vehicle =>
                            includes (toLowerCase (item_make vehicle))
                                     (toLowerCase searchQuery)
                            || includes (toLowerCase (item_model vehicle))
                                        (toLowerCase searchQuery)) l
                     else l)
               <-> In v l
                   /\ (searchQuery <> "" ->
                       exists pre post,
                         toLowerCase (item_make v)
                         = (pre ++ toLowerCase searchQuery ++ post)%string
                         \/ toLowerCase (item_model v)
                            = (pre ++ toLowerCase searchQuery ++ post)%string)).
    { intros l. destruct searchQuery as [|c q]; cbn [truthy].
      - split; [intros H; split; auto; intros E; now destruct E|tauto].
      - rewrite filter_In. split.
        + intros (Hin & H). split; auto. intros _.
          apply orb_prop in H as [H|H];
            apply includes_spec in H as (pre & post & E);
            exists pre, post; auto.
        + intros (Hin & H). split; auto.
          destruct H as (pre & post & [E|E]); [discriminate| |].
          * assert (I : includes (toLowerCase (item_make v))
                                 (toLowerCase (String c q)) = true)
              by (apply includes_spec; eauto).
            now rewrite I.
          * assert (I : includes (toLowerCase (item_model v))
                                 (toLowerCase (String c q)) = true)
              by (apply includes_spec; eauto).
            rewrite I. apply orb_true_r. }
    rewrite Hq. destruct (Server.truthyText selectedMake) as [sel|].
    + rewrite filter_In. split.
      * intros ((Hin & E) & H). apply String.eqb_eq in E.
        repeat split; auto. intros ? [= <-]. exact E.
      * intros (Hin & Hs & H). repeat split; auto.
        apply String.eqb_eq. now apply Hs.
    + split; [intros (Hin & H); repeat split; auto; discriminate|tauto].
  - unfold filterCollection.
    destruct (Server.truthyText selectedMake) as [sel|];
      destruct (truthy searchQuery).
    + rewrite filter_filter_and. eexists. reflexivity.
    + eexists. reflexivity.
    + eexists. reflexivity.
    + exists (fun _ => true). induction collection as [|v c IH];
        simpl; congruence.
Qed.

Lemma filterCollection_membership_witness :
  In {| id := "1"; item_make := "Volvo"; item_model := "V60";
        imageUri := "a"; dateSpotted := "d"; fullModel := "volvo v60" |}
     (filterCollection
        [{| id := "1"; item_make := "Volvo"; item_model := "V60";
            imageUri := "a"; dateSpotted := "d"; fullModel := "volvo v60" |}]
        (Some "Volvo") "v6").
Proof.
  apply (proj1 (filterCollection_membership _ _ _)).
  split; [now left|]. split.
  - intros selected [= <-]. reflexivity.
  - intros _. exists "", "0". right. reflexivity.
Defined.

(** X14.  The search ignores letter case, and a make offered as a filter
    always has results: with the search field empty, selecting any make of
    the filter bar shows at least one vehicle. *)
Theorem filter_ignores_case_and_listed_make_has_results
        (collection : list CollectedVehicle) :
  (forall selectedMake q q',
      toLowerCase q = toLowerCase q' ->
      filterCollection collection selectedMake q
      = filterCollection collection selectedMake q')
  /\ (forall m,
        In m (uniqueMakes collection) ->
        filterCollection collection (Some m) "" <> []).
Proof.
  split.
  - intros sel q q' E. unfold filterCollection.
    rewrite <- (toLowerCase_truthy q), <- (toLowerCase_truthy q'), E.
    reflexivity.
  - intros m Hm.
    apply (proj1 (uniqueMakes_members collection m)) in Hm as (v & Hv & E).
    intros Hnil.
    assert (Hin : In v (filterCollection collection (Some m) "")).
    { unfold filterCollection. cbn [truthy].
      destruct (Server.truthyText (Some m)) as [sel|] eqn:T; [|exact Hv].
      assert (sel = m) as ->.
      { simpl in T. destruct (truthy m); congruence. }
      apply filter_In. split; auto. now apply String.eqb_eq. }
    rewrite Hnil in Hin. destruct Hin.
Qed.

Lemma filter_ignores_case_and_listed_make_has_results_witness :
  filterCollection
    [{| id := "1"; item_make := "Volvo"; item_model := "V60";
        imageUri := "a"; dateSpotted := "d"; fullModel := "volvo v60" |}]
    None "VOL"
  = filterCollection
      [{| id := "1"; item_make := "Volvo"; item_model := "V60";
          imageUri := "a"; dateSpotted := "d"; fullModel := "volvo v60" |}]
      None "vol".
Proof.
  apply (proj1 (filter_ignores_case_and_listed_make_has_results _)).
  reflexivity.
Defined.

End FilterProperties.


(* ================================================================== *)
(** * The app and the server together                                 *)
(* ================================================================== *)

Section ClientProperties.
Import App.



End ClientProperties.


Section PriorityProperties.
Import Server.

Lemma dedupe_hd (xs : list string) : hd_error (dedupe xs) = hd_error xs.
Proof. destruct xs as [|x xs]; [reflexivity|]. now rewrite dedupe_cons. Qed.

Lemma upload_url_of_first registry annotations p rest :
  pushedPlates (fullTextOf annotations) annotations = p :: rest ->
  snd (run registry (upload (Some annotations))) = [registryUrl p].
Proof.
  intros E.
  assert (D : detectedPlates annotations
              = p :: filter (notIn [p]) (dedupe rest)).
  { unfold detectedPlates, extractLicensePlates. now rewrite E, dedupe_cons. }
  rewrite (run_upload_plates _ _ _ _ D). cbn [snd].
  rewrite (licensePlates_normalised annotations p); [reflexivity|].
  rewrite D. now left.
Qed.

(** X16.  Two adjacent text segments whose concatenation the matcher
    accepts, and three adjacent text segments whose concatenation the
    matcher accepts, always put their normalised concatenation in the
    final list of plates. *)
Theorem adjacent_fragments_are_detected
        (annotations : list TextAnnotation) :
  (forall pre a b post,
      textSegments annotations = pre ++ a :: b :: post ->
      isValidUKLicensePlate (a ++ b) = true ->
      In (clean a ++ clean b)%string (detectedPlates annotations))
  /\ (forall pre a b c post,
        textSegments annotations = pre ++ a :: b :: c :: post ->
        isValidUKLicensePlate (a ++ b ++ c) = true ->
        In (clean a ++ clean b ++ clean c)%string
           (detectedPlates annotations)).
Proof.
  split.
  - intros pre a b post E V.
    unfold detectedPlates, extractLicensePlates, pushedPlates.
    apply dedupe_In. rewrite !in_app_iff. right; right; left.
    apply method3_In. exists pre, a, b, post. auto.
  - intros pre a b c post E V.
    unfold detectedPlates, extractLicensePlates, pushedPlates.
    apply dedupe_In. rewrite !in_app_iff. right; right; right.
    apply method4_In. exists pre, a, b, c, post. auto.
Qed.

Lemma adjacent_fragments_are_detected_witness :
  In "A123BCD"
     (detectedPlates (map annot ["registration a123 bcd"; "registration";
                                 "a123"; "bcd"])).
Proof.
  apply (proj1 (adjacent_fragments_are_detected
                  (map annot ["registration a123 bcd"; "registration";
                              "a123"; "bcd"]))
           ["registration"] "a123" "bcd" []).
  - reflexivity.
  - reflexivity.
Defined.

(** X17.  The plate that [/upload] looks up is the first candidate in
    push order: the first match of the full-text scan when the scan finds
    one, otherwise the first single annotation the matcher accepts, and
    so on; deduplication does not change which candidate comes first. *)
Theorem looked_up_plate_is_first_candidate
        (registry : string -> AxiosOutcome)
        (annotations : list TextAnnotation) :
  hd_error (detectedPlates annotations)
  = hd_error (pushedPlates (fullTextOf annotations) annotations)
  /\ (forall p rest,
        method1 (fullTextOf annotations) = p :: rest ->
        snd (run registry (upload (Some annotations))) = [registryUrl p])
  /\ (forall p rest,
        method1 (fullTextOf annotations) = [] ->
        method2 annotations = p :: rest ->
        snd (run registry (upload (Some annotations))) = [registryUrl p]).
Proof.
  split; [apply dedupe_hd|]. split.
  - intros p rest E. eapply upload_url_of_first.
    unfold pushedPlates. rewrite E. reflexivity.
  - intros p rest E1 E2. eapply upload_url_of_first.
    unfold pushedPlates. rewrite E1, E2. reflexivity.
Qed.

Lemma looked_up_plate_is_first_candidate_witness :
  snd (run (fun _ => Thrown)
           (upload (Some (map annot ["XY99 ZZZ and AB12 CDE"; "CDE"]))))
  = [registryUrl "XY99ZZZ"].
Proof.
  apply (proj1 (proj2 (looked_up_plate_is_first_candidate
                         (fun _ => Thrown)
                         (map annot ["XY99 ZZZ and AB12 CDE"; "CDE"])))
           "XY99ZZZ" ["AB12CDE"]).
  reflexivity.
Defined.

End PriorityProperties.


(* ================================================================== *)
(** * The matcher beyond ASCII                                         *)
(* ================================================================== *)

Section UnicodeMatcher.
Import Regex Server.

Ltac by_ascii c :=
  destruct c as [[] [] [] [] [] [] [] []]; vm_compute; intros;
  try reflexivity; try discriminate.

Lemma ascii_space c :
  Utf16.isAscii c = true -> Utf16.is_space (N_of_ascii c) = is_space c.
Proof. by_ascii c. Qed.

Lemma ascii_upper c :
  Utf16.isAscii c = true -> Utf16.upperUnit (N_of_ascii c) = [N_of_ascii (upper c)].
Proof. by_ascii c. Qed.

Lemma ascii_upper_ascii c :
  Utf16.isAscii c = true -> Utf16.isAscii (upper c) = true.
Proof. by_ascii c. Qed.

Lemma AZ_ascii c : is_AZ c = true -> Utf16.isAscii c = true.
Proof. by_ascii c. Qed.

Lemma digit_ascii c : is_digit c = true -> Utf16.isAscii c = true.
Proof. by_ascii c. Qed.

Lemma asBytes_unitsOf (s : string) : Utf16.asBytes (Utf16.unitsOf s) = Some s.
Proof.
  induction s as [|c s IH]; simpl; [reflexivity|].
  rewrite IH. simpl.
  assert (H : (N_of_ascii c <? 256)%N = true).
  { apply N.ltb_lt. apply N_ascii_bounded. }
  now rewrite H, ascii_N_embedding.
Qed.

Lemma length_unitsOf (s : string) :
  List.length (Utf16.unitsOf s) = String.length s.
Proof. induction s; simpl; congruence. Qed.

Lemma stripSpaces_unitsOf (s : string) :
  allChars Utf16.isAscii s = true ->
  Utf16.stripSpaces (Utf16.unitsOf s) = Utf16.unitsOf (stripSpaces s)
  /\ allChars Utf16.isAscii (stripSpaces s) = true.
Proof.
  induction s as [|c s IH]; simpl; [auto|].
  intros H. apply andb_prop in H as [Hc Hs].
  destruct (IH Hs) as [E A]. unfold Utf16.stripSpaces in *. simpl.
  rewrite (ascii_space _ Hc). destruct (is_space c); simpl; [auto|].
  now rewrite E, Hc, A.
Qed.

Lemma toUpperCase_unitsOf (s : string) :
  allChars Utf16.isAscii s = true ->
  Utf16.toUpperCase (Utf16.unitsOf s) = Utf16.unitsOf (toUpperCase s).
Proof.
  induction s as [|c s IH]; simpl; [auto|].
  intros H. apply andb_prop in H as [Hc Hs].
  unfold Utf16.toUpperCase in *. simpl.
  now rewrite (ascii_upper _ Hc), IH.
Qed.

(** On ASCII text the two matchers agree. *)
Lemma isValid_ascii (s : string) :
  allChars Utf16.isAscii s = true ->
  Utf16.isValidUKLicensePlate (Utf16.unitsOf s) = isValidUKLicensePlate s.
Proof.
  intros H. unfold Utf16.isValidUKLicensePlate, isValidUKLicensePlate.
  destruct (stripSpaces_unitsOf s H) as [E A].
  rewrite E, (toUpperCase_unitsOf _ A). fold (clean s).
  unfold Utf16.test. rewrite asBytes_unitsOf, length_unitsOf.
  reflexivity.
Qed.

Lemma currentShape_ascii (s : string) :
  currentShape s = true -> allChars Utf16.isAscii s = true.
Proof.
  intros H.
  apply currentShape_inv in H
    as (a & b & c & d & e & f & g & -> & Ha & Hb & Hc & Hd & He & Hf & Hg).
  cbn [allChars].
  now rewrite (AZ_ascii _ Ha), (AZ_ascii _ Hb), (digit_ascii _ Hc),
    (digit_ascii _ Hd), (AZ_ascii _ He), (AZ_ascii _ Hf), (AZ_ascii _ Hg).
Qed.

Lemma digits_ascii (s : string) :
  allChars is_digit s = true -> allChars Utf16.isAscii s = true.
Proof. apply allChars_impl. apply digit_ascii. Qed.

Lemma assocUnit_In (u : N) (table : list (N * list N)) (l : list N) :
  Utf16.assocUnit u table = Some l -> In (u, l) table.
Proof.
  induction table as [|[k v] r IH]; simpl; [discriminate|].
  destruct (N.eqb k u) eqn:E.
  - intros [= <-]. apply N.eqb_eq in E. subst. now left.
  - intros H. right. auto.
Qed.

(** No pattern of the table matches a string of fewer than 2 bytes. *)
Lemma test_short (re : Regex.t) (s : string) :
  In re patterns -> String.length s < 2 -> Regex.test re s = false.
Proof.
  intros Hin Hl. destruct (Regex.test re s) eqn:E; [|reflexivity].
  assert (Hs : structuralTest s = true).
  { unfold structuralTest. apply existsb_exists. exists re. auto. }
  apply structuralTest_shape in Hs. lia.
Qed.

Lemma isValid_of_short_clean (text : Utf16.ustring) :
  List.length (Utf16.toUpperCase (Utf16.stripSpaces text)) < 2 ->
  Utf16.isValidUKLicensePlate text = false.
Proof.
  intros Hl. unfold Utf16.isValidUKLicensePlate. cbv zeta.
  set (cleanText := Utf16.toUpperCase (Utf16.stripSpaces text)) in *.
  assert (H7 : (7 <=? List.length cleanText) = false)
    by (apply Nat.leb_gt; lia).
  rewrite H7. cbn [andb].
  unfold Utf16.test. destruct (Utf16.asBytes cleanText) as [bytes|] eqn:B.
  - assert (Hb : String.length bytes < 2).
    { clear H7. revert bytes B.
      destruct cleanText as [|u [|v r]]; simpl in Hl; try lia; simpl.
      - intros bytes [= <-]. simpl. lia.
      - destruct (u <? 256)%N; [|discriminate].
        intros bytes [= <-]. simpl. lia. }
    assert (T : forall re, In re patterns -> Regex.test re bytes = false)
      by (intros; now apply test_short).
    unfold patterns in *. cbn [existsb].
    rewrite !T; simpl; auto 10.
  - unfold patterns. reflexivity.
Qed.

(** A string of one code unit is accepted exactly when the unit is the
    ligature U+FB03 or U+FB04. *)
Lemma isValid_single (u : N) :
  Utf16.isValidUKLicensePlate [u] = true <-> u = 64259%N \/ u = 64260%N.
Proof.
  split.
  - intros H.
    destruct (Utf16.is_space u) eqn:Hs.
    { rewrite isValid_of_short_clean in H; [discriminate|].
      unfold Utf16.stripSpaces. simpl. rewrite Hs. simpl. lia. }
    assert (Hc : Utf16.toUpperCase (Utf16.stripSpaces [u]) = Utf16.upperUnit u).
    { unfold Utf16.stripSpaces, Utf16.toUpperCase. simpl. rewrite Hs. simpl.
      apply app_nil_r. }
    unfold Utf16.upperUnit in Hc.
    destruct ((97 <=? u) && (u <=? 122))%N.
    { rewrite isValid_of_short_clean in H; [discriminate|].
      rewrite Hc. simpl. lia. }
    destruct (Utf16.assocUnit u Utf16.specialUpper) as [l|] eqn:A.
    + apply assocUnit_In in A. unfold Utf16.specialUpper in A.
      simpl in A.
      repeat (destruct A as [A|A];
              [injection A as <- <-; vm_compute in H;
               try discriminate; auto|]).
      destruct A.
    + rewrite isValid_of_short_clean in H; [discriminate|].
      rewrite Hc. simpl. lia.
  - intros [-> | ->]; reflexivity.
Qed.

(** C7, as the claim states it, fails: the string made of the single
    character U+FB03 has length 1, and the matcher, which uppercases it to
    "FFI", accepts it. *)
Lemma short_ligature_accepted_counterexample :
  ~ (forall s : Utf16.ustring,
        List.length s < 2 -> Utf16.isValidUKLicensePlate s = false).
Proof.
  intros H. specialize (H [64259%N]). simpl in H.
  assert (E : Utf16.isValidUKLicensePlate [64259%N] = true) by reflexivity.
  rewrite H in E; [discriminate|lia].
Qed.

(** C7, amended.  The matcher accepts every string of exactly 2 uppercase
    letters, 2 digits and 3 uppercase letters and rejects every string of
    digits only.  Of the strings of length less than 2 it rejects all but
    two: the single characters U+FB03 and U+FB04, which [toUpperCase]
    turns into the three letters FFI and FFL; in particular it rejects
    every ASCII string of length less than 2.  On ASCII text it is the
    matcher of the ASCII model. *)
Theorem isValidPlate_current_digits_short
        (s : string) (text : Utf16.ustring) :
  (currentShape s = true ->
   Utf16.isValidUKLicensePlate (Utf16.unitsOf s) = true)
  /\ (allChars is_digit s = true ->
      Utf16.isValidUKLicensePlate (Utf16.unitsOf s) = false)
  /\ (List.length text < 2 ->
      (Utf16.isValidUKLicensePlate text = true <->
       text = [64259%N] \/ text = [64260%N]))
  /\ (allChars Utf16.isAscii s = true -> String.length s < 2 ->
      Utf16.isValidUKLicensePlate (Utf16.unitsOf s) = false)
  /\ (allChars Utf16.isAscii s = true ->
      Utf16.isValidUKLicensePlate (Utf16.unitsOf s)
      = Server.isValidUKLicensePlate s).
Proof.
  split; [|split; [|split; [|split]]].
  - intros H. rewrite (isValid_ascii _ (currentShape_ascii _ H)).
    now apply isValidPlate_shape.
  - intros H. rewrite (isValid_ascii _ (digits_ascii _ H)).
    now apply isValid_digits.
  - intros Hl. destruct text as [|u [|v r]]; simpl in Hl; try lia.
    + split; [discriminate|]. intros [H|H]; discriminate.
    + rewrite isValid_single. split.
      * intros [-> | ->]; auto.
      * intros [[= ->]|[= ->]]; auto.
  - intros Ha Hl. rewrite (isValid_ascii _ Ha). now apply isValid_short.
  - apply isValid_ascii.
Qed.

Lemma isValidPlate_current_digits_short_witness :
  Utf16.isValidUKLicensePlate (Utf16.unitsOf "AB12CDE") = true
  /\ Utf16.isValidUKLicensePlate (Utf16.unitsOf "2024") = false
  /\ (Utf16.isValidUKLicensePlate [64260%N] = true <->
      [64260%N] = [64259%N] \/ [64260%N] = [64260%N])
  /\ Utf16.isValidUKLicensePlate (Utf16.unitsOf "A") = false.
Proof.
  split; [|split; [|split]].
  - apply (proj1 (isValidPlate_current_digits_short "AB12CDE" [])).
    reflexivity.
  - apply (proj1 (proj2 (isValidPlate_current_digits_short "2024" []))).
    reflexivity.
  - apply (proj1 (proj2 (proj2
             (isValidPlate_current_digits_short "" [64260%N])))).
    simpl. lia.
  - apply (proj1 (proj2 (proj2 (proj2
             (isValidPlate_current_digits_short "A" []))))).
    + reflexivity.
    + simpl. lia.
Defined.

End UnicodeMatcher.
